(** * Danmuji: the chat-stream decoder of the minesweeper game

    A shallow embedding of [src/minesweeper/danmuji.py]: the recursive
    frame decoder [decode_danmu], the classification of chat messages by
    three regular expressions, and the lock-protected list of commands
    drained by [get_danmu_list].

    Python values are modelled as follows.
    - [bytes] is a list of bytes, a slice [data[a:b]] is [firstn]/[skipn];
    - [str] is a list of Unicode code points (a regular expression over a
      [str] pattern works on code points, not on UTF-8 bytes);
    - Python integers are [Z];
    - a JSON document as [json.loads] returns it is a [json] value;
    - an exception is an explicit outcome that carries the command list as
      it is when the exception leaves [decode_danmu] (the list is an
      attribute of the object, an exception does not undo an append);
    - [print] writes to the console and is left out.

    The interpreter and the libraries the module calls ([zlib], [json],
    the UTF-8 codec, the Unicode database behind [\d] and [int]) are an
    interface, [PyRuntime]; the theorems hold for every implementation of
    it, and [ref_runtime] is one that computes. *)

From Stdlib Require Import String Ascii ZArith List Bool Lia.
From Stdlib Require Import Strings.Byte.
Import ListNotations.
Local Open Scope Z_scope.

(** ** Python values *)

Definition bytes := list byte.
Definition str := list Z.

Definition byte_val (b : byte) : Z := Z.of_N (Byte.to_N b).

(** A string literal of the source, as code points (ASCII literals). *)
Definition lit (s : string) : str :=
  map (fun a => Z.of_N (N_of_ascii a)) (list_ascii_of_string s).

(** The full-width exclamation mark U+FF01 of the patterns. *)
Definition fw_bang : Z := 65281.

(** The gift name the module tracks, U+5403 U+74DC. *)
Definition tracked_gift : str := [21507; 29916].

Fixpoint str_eqb (a b : str) : bool :=
  match a, b with
  | [], [] => true
  | x :: a', y :: b' => (x =? y) && str_eqb a' b'
  | _, _ => false
  end.

(** [data[a:b]] for constants [0 <= a <= b]. *)
Definition slice (a b : nat) (data : bytes) : bytes :=
  firstn (b - a) (skipn a data).

(** [int(b.hex(), 16)]: the big-endian value of the bytes; the hex string
    of no byte is empty and [int('', 16)] raises [ValueError]. *)
Definition int_of_hex (b : bytes) : option Z :=
  match b with
  | [] => None
  | _ => Some (fold_left (fun acc x => acc * 256 + byte_val x) b 0)
  end.

#[local] Unset Elimination Schemes.
Inductive json :=
| JNull
| JBool (b : bool)
| JInt (z : Z)
| JFloat (repr : str)
| JStr (s : str)
| JList (l : list json)
| JDict (d : list (str * json)).
#[local] Set Elimination Schemes.

Fixpoint assoc (k : str) (d : list (str * json)) : option json :=
  match d with
  | [] => None
  | (k', v) :: d' => if str_eqb k k' then Some v else assoc k d'
  end.

(** [j[k]] for a string key: a [dict] is looked up ([KeyError] when the key
    is absent), every other JSON value raises [TypeError]. *)
Definition getitem (j : json) (k : str) : option json :=
  match j with
  | JDict d => assoc k d
  | _ => None
  end.

(** [j[i]] for a constant index [i >= 0]: a list or a string is indexed
    ([IndexError] past the end; a string yields a one-character string), a
    [dict] has no integer key ([KeyError]), the rest raises [TypeError]. *)
Definition getindex (j : json) (i : nat) : option json :=
  match j with
  | JList l => nth_error l i
  | JStr s => option_map (fun c => JStr [c]) (nth_error s i)
  | _ => None
  end.

(** [j == s] for a string literal [s]. *)
Definition eq_lit (j : json) (s : str) : bool :=
  match j with
  | JStr t => str_eqb t s
  | _ => false
  end.

(** ** The runtime interface *)

Class PyRuntime := {
  (** [zlib.decompress]; [None] is [zlib.error]. *)
  zlib_decompress : bytes -> option bytes;
  (** [b.decode('utf-8', errors='ignore')]: it never raises. *)
  utf8_decode_ignore : bytes -> str;
  (** [json.loads]; [None] is an exception ([JSONDecodeError], ...). *)
  json_loads : str -> option json;
  (** The decimal digit value of a code point: the characters [\d] matches
      in a [str] pattern are those that have one, and [int] reads them. *)
  decimal : Z -> option Z;
  decimal_ascii : forall c, 0 <= c < 128 ->
    decimal c = if (48 <=? c) && (c <=? 57) then Some (c - 48) else None;
  decimal_fw_bang : decimal fw_bang = None;
  (** Whether [print] of the tuple of these values returns; it raises
      [UnicodeEncodeError] when [sys.stdout] cannot encode a character of
      the text it writes. *)
  print_ok : list json -> bool
}.

(** ** Regular expressions: the fragment of [re] the module uses *)

Inductive regex :=
| Eps                         (* the empty pattern *)
| Chr (c : Z)                 (* a literal character *)
| Rng (lo hi : Z)             (* [lo-hi] *)
| Dig                         (* \d *)
| Cat (r1 r2 : regex)         (* r1r2 *)
| Alt (r1 r2 : regex)         (* r1|r2, the left one tried first *)
| Opt (r : regex)             (* r?, greedy *)
| Grp (n : nat) (r : regex).  (* the n-th capturing group *)

(** The spans [(start, end)] of the groups that matched, the latest
    first. *)
Definition captures := list (nat * (nat * nat)).

Fixpoint span (m : captures) (n : nat) : option (nat * nat) :=
  match m with
  | [] => None
  | (k, ab) :: m' => if Nat.eqb k n then Some ab else span m' n
  end.

(** A match object: the subject string and the spans of its groups. *)
Record match_object := { subject : str; spans : captures }.

(** [m.group(n)]; [None] for a group that did not take part. *)
Definition group (m : match_object) (n : nat) : option str :=
  match span (spans m) n with
  | Some (a, b) => Some (firstn (b - a) (skipn a (subject m)))
  | None => None
  end.

Section Matcher.
Context {R : PyRuntime}.

(** The backtracking matcher, in continuation-passing style: [s] is what
    is left of the subject from position [i] on, [k] is the rest of the
    pattern; an alternative is left when the rest fails. *)
Fixpoint exec (r : regex) (s : str) (i : nat) (m : captures)
    (k : str -> nat -> captures -> option captures) : option captures :=
  match r with
  | Eps => k s i m
  | Chr c =>
      match s with
      | x :: s' => if x =? c then k s' (S i) m else None
      | [] => None
      end
  | Rng lo hi =>
      match s with
      | x :: s' => if (lo <=? x) && (x <=? hi) then k s' (S i) m else None
      | [] => None
      end
  | Dig =>
      match s with
      | x :: s' =>
          match decimal x with
          | Some _ => k s' (S i) m
          | None => None
          end
      | [] => None
      end
  | Cat r1 r2 => exec r1 s i m (fun s' i' m' => exec r2 s' i' m' k)
  | Alt r1 r2 =>
      match exec r1 s i m k with
      | Some res => Some res
      | None => exec r2 s i m k
      end
  | Opt r1 =>
      match exec r1 s i m k with
      | Some res => Some res
      | None => k s i m
      end
  | Grp n r1 => exec r1 s i m (fun s' i' m' => k s' i' ((n, (i, i')) :: m'))
  end.

(** [re.match(r, s)]: anchored at the start, any rest allowed. *)
Definition re_match (r : regex) (s : str) : option match_object :=
  match exec r s 0%nat [] (fun _ _ m => Some m) with
  | Some m => Some {| subject := s; spans := m |}
  | None => None
  end.

(** [int(s)] on a string of decimal digits. *)
Fixpoint int_digits (acc : Z) (s : str) : option Z :=
  match s with
  | [] => Some acc
  | c :: s' =>
      match decimal c with
      | Some v => int_digits (acc * 10 + v) s'
      | None => None
      end
  end.

Definition py_int (s : str) : option Z :=
  match s with
  | [] => None
  | _ => int_digits 0 s
  end.
End Matcher.

(** [(!?!?|U+FF01?U+FF01?)], the first group of both cell patterns. *)
Definition marks : regex :=
  Grp 1 (Alt (Cat (Opt (Chr 33)) (Opt (Chr 33)))
             (Cat (Opt (Chr fw_bang)) (Opt (Chr fw_bang)))).
Definition letter : regex := Alt (Rng 97 122) (Rng 65 90).
Definition digits : regex := Alt (Cat Dig Dig) Dig.

(** ["(!?!?|U+FF01?U+FF01?)([a-z]|[A-Z])(\d\d|\d)"] *)
Definition pat_letter_digits : regex :=
  Cat marks (Cat (Grp 2 letter) (Grp 3 digits)).
(** ["(!?!?|U+FF01?U+FF01?)(\d\d|\d)([a-z]|[A-Z])"] *)
Definition pat_digits_letter : regex :=
  Cat marks (Cat (Grp 2 digits) (Grp 3 letter)).

Fixpoint word (w : str) : regex :=
  match w with
  | [] => Eps
  | c :: w' => Cat (Chr c) (word w')
  end.

(** ["(easy|normal|EASY|NORMAL)"] *)
Definition pat_difficulty : regex :=
  Grp 1 (Alt (word (lit "easy"))
        (Alt (word (lit "normal"))
        (Alt (word (lit "EASY")) (word (lit "NORMAL"))))).

(** [s.lower()] and [s.upper()] on the ASCII letters the patterns let
    through. *)
Definition lower (s : str) : str :=
  map (fun c => if (65 <=? c) && (c <=? 90) then c + 32 else c) s.
Definition upper (s : str) : str :=
  map (fun c => if (97 <=? c) && (c <=? 122) then c - 32 else c) s.

(** [ord(s)]: [TypeError] unless [s] has one character. *)
Definition ord (s : str) : option Z :=
  match s with
  | [c] => Some c
  | _ => None
  end.

(** ** Commands *)

(** The third component of an entry of [danmu_list]: a cell [(col, row)],
    or a string (the difficulty, [""] for a gift). *)
Inductive arg :=
| Pos (col row : Z)
| Txt (s : str).

(** [(name, op, arg)]; the name is whatever the JSON holds there. *)
Definition command : Type := json * string * arg.
Definition danmu_list := list command.

Inductive exn :=
| ValueError       (* [int('', 16)]: a header field has no byte *)
| ZlibError        (* [zlib.error] *)
| RecursionError.  (* the interpreter's recursion limit is reached *)

(** What a call leaves: the list of commands, and the exception when one
    propagates out of the call. *)
Inductive outcome :=
| Returned (q : danmu_list)
| Raised (e : exn) (q : danmu_list).

Definition and_then (o : outcome) (k : danmu_list -> outcome) : outcome :=
  match o with
  | Returned q => k q
  | Raised e q => Raised e q
  end.

Definition queue_of (o : outcome) : danmu_list :=
  match o with
  | Returned q => q
  | Raised _ q => q
  end.

Notation "x <- a ;; b" :=
  (match a with Some x => b | None => None end)
  (at level 61, a at next level, right associativity).

(** ** [decode_danmu] *)

(** Lines 59-61: [packet_len], [ver] and [op], read from the start of the
    buffer; [None] when one of the three slices is empty ([ValueError]). *)
Definition header (data : bytes) : option (Z * Z * Z) :=
  packet_len <- int_of_hex (slice 0 4 data) ;;
  ver <- int_of_hex (slice 6 8 data) ;;
  op <- int_of_hex (slice 8 12 data) ;;
  Some (packet_len, ver, op).

Section Decoder.
Context {R : PyRuntime}.

(** The three-way branch on [m.group(1)] of lines 109-117 and 124-132;
    [gl] and [gd] are the numbers of the letter and of the digit group.
    [None] is an exception inside the [try]. *)
Definition cell_command (user : json) (m : match_object) (gl gd : nat)
    : option command :=
  g1 <- group m 1 ;;
  l <- group m gl ;;
  d <- group m gd ;;
  col <- ord (lower l) ;;
  row <- py_int d ;;
  let pos := Pos (col - 97) row in
  Some (if str_eqb g1 (lit "!") || str_eqb g1 [fw_bang]
        then (user, "check"%string, pos)
        else if str_eqb g1 (lit "!!") || str_eqb g1 [fw_bang; fw_bang]
        then (user, "uncheck"%string, pos)
        else (user, "open"%string, pos)).

(** Lines 106-141: the commands a chat text appends, the first pattern
    that matches decides. *)
Definition classify (user : json) (text : str) : option (list command) :=
  match re_match pat_letter_digits text with
  | Some m => c <- cell_command user m 2 3 ;; Some [c]
  | None =>
      match re_match pat_digits_letter text with
      | Some m => c <- cell_command user m 3 2 ;; Some [c]
      | None =>
          match re_match pat_difficulty text with
          | Some m =>
              w <- group m 1 ;;
              Some [(user, "difficulty"%string, Txt (upper w))]
          | None => Some []
          end
      end
  end.

(** [print(x)] inside the [try], lines 84, 99 and 105: [None] when it
    raises. *)
Definition py_print (x : list json) : option unit :=
  if print_ok x then Some tt else None.

(** Lines 81-141, the body of the [try]: the commands it appends, [None]
    when an exception ends it (every append is the last effect on the
    list of its branch, so an exception means that nothing was appended:
    [print(gift_info)] and [print(info)] stand before the append, the
    prints of lines 118, 133 and 140 after it). *)
Definition business (jd : json) : option (list command) :=
  cmd <- getitem jd (lit "cmd") ;;
  if eq_lit cmd (lit "SEND_GIFT") then
    d <- getitem jd (lit "data") ;;
    uname <- getitem d (lit "uname") ;;
    num <- getitem d (lit "num") ;;
    gift_name <- getitem d (lit "giftName") ;;
    _ <- py_print [uname; num; gift_name] ;;
    if eq_lit gift_name tracked_gift
    then Some [(uname, "gift"%string, Txt [])]
    else Some []
  else if eq_lit cmd (lit "GUARD_BUY") then
    d <- getitem jd (lit "data") ;;
    username <- getitem d (lit "username") ;;
    _ <- py_print [username; JStr (lit "1"); JStr (lit "captain")] ;;
    Some [(username, "gift"%string, Txt [])]
  else if eq_lit cmd (lit "DANMU_MSG") then
    info <- getitem jd (lit "info") ;;
    i2 <- getindex info 2 ;;
    user <- getindex i2 1 ;;
    text <- getindex info 1 ;;
    _ <- py_print [user; text] ;;
    match text with
    | JStr t => classify user t
    | _ => None
    end
  else Some [].

(** Lines 79-143: [json.loads] is inside the [try], and
    [except Exception] swallows whatever the body raises. *)
Definition on_message (data : bytes) : list command :=
  match json_loads (utf8_decode_ignore (skipn 16 data)) with
  | Some jd =>
      match business jd with
      | Some cs => cs
      | None => []
      end
  | None => []
  end.

(** Lines 67-143, the current frame once the rest of the buffer has been
    decoded; [self_call] is the recursive call of line 69. *)
Definition frame (self_call : bytes -> danmu_list -> outcome)
    (ver op : Z) (data : bytes) (q : danmu_list) : outcome :=
  if ver =? 2 then
    match zlib_decompress (skipn 16 data) with
    | Some inner => self_call inner q
    | None => Raised ZlibError q
    end
  else if ver =? 1 then Returned q
  else if op =? 5 then Returned (q ++ on_message data)
  else Returned q.

(** [decode_danmu], lines 58-143. [depth] is the number of nested calls
    of [decode_danmu] the interpreter still allows (each with room for
    the library calls it makes): the recursion is not on a smaller
    argument (a length field of zero recurses on the same buffer, a
    decompressed payload may be longer than its frame), and Python ends
    it with [RecursionError]. *)
Fixpoint decode_danmu (depth : nat) (data : bytes) (q : danmu_list)
    : outcome :=
  match depth with
  | O => Raised RecursionError q
  | S depth' =>
      match header data with
      | Some (packet_len, ver, op) =>
          if Z.of_nat (List.length data) >? packet_len then
            and_then
              (decode_danmu depth' (skipn (Z.to_nat packet_len) data) q)
              (frame (decode_danmu depth') ver op
                 (firstn (Z.to_nat packet_len) data))
          else frame (decode_danmu depth') ver op data q
      | None => Raised ValueError q
      end
  end.

(** [recv_danmu], lines 53-56, over the messages the socket delivers:
    there is no handler, so the first exception ends the loop. *)
Fixpoint recv_danmu (depth : nat) (msgs : list bytes) (q : danmu_list)
    : outcome :=
  match msgs with
  | [] => Returned q
  | msg :: rest =>
      and_then (decode_danmu depth msg q) (recv_danmu depth rest)
  end.
End Decoder.

(** ** [get_danmu_list] *)

(** Lines 28-33 as one step: the copy that is returned, and the list that
    is left. *)
Definition get_danmu_list (q : danmu_list) : danmu_list * danmu_list :=
  (q, []).

(** ** The two threads and the lock

    [run] starts the event loop, and with it [decode_danmu], in a thread
    of its own; the game calls [get_danmu_list] from its thread.  Both
    touch [self.danmu_list] only between [lock.acquire()] and
    [lock.release()].  A state of the system records where each thread
    stands between two statements; [pushed] and [delivered] are ghost
    histories: the commands appended so far, and the lists the calls of
    [get_danmu_list] have returned. *)

Module Threads.

Inductive thread := Producer | Consumer.

(** The decoder thread in an append section (lines 86-88, 100-102,
    108-118, 123-133, 138-141). *)
Inductive producer :=
| PIdle
| PLocked (c : command)   (* after [self.lock.acquire()] *)
| PAppended.              (* after [self.danmu_list.append(c)] *)

(** The game thread in [get_danmu_list] (lines 29-33). *)
Inductive consumer :=
| CIdle
| CLocked                      (* after [self.lock.acquire()] *)
| CCopied (l : danmu_list)     (* after [danmu_list = self.danmu_list.copy()] *)
| CCleared (l : danmu_list)    (* after [self.danmu_list.clear()] *)
| CReleased (l : danmu_list).  (* after [self.lock.release()] *)

Record state := St {
  lock : option thread;
  shared : danmu_list;
  prod : producer;
  cons : consumer;
  pushed : danmu_list;
  delivered : list danmu_list
}.

Definition init : state := St None [] PIdle CIdle [] [].

(** One statement of one thread; [acquire] needs the lock to be free. *)
Inductive step : state -> state -> Prop :=
| p_acquire c sh cs pu de :
    step (St None sh PIdle cs pu de) (St (Some Producer) sh (PLocked c) cs pu de)
| p_append c lk sh cs pu de :
    step (St lk sh (PLocked c) cs pu de)
         (St lk (sh ++ [c]) PAppended cs (pu ++ [c]) de)
| p_release lk sh cs pu de :
    step (St lk sh PAppended cs pu de) (St None sh PIdle cs pu de)
| c_acquire sh pr pu de :
    step (St None sh pr CIdle pu de) (St (Some Consumer) sh pr CLocked pu de)
| c_copy lk sh pr pu de :
    step (St lk sh pr CLocked pu de) (St lk sh pr (CCopied sh) pu de)
| c_clear lk sh pr l pu de :
    step (St lk sh pr (CCopied l) pu de) (St lk [] pr (CCleared l) pu de)
| c_release lk sh pr l pu de :
    step (St lk sh pr (CCleared l) pu de) (St None sh pr (CReleased l) pu de)
| c_return lk sh pr l pu de :
    step (St lk sh pr (CReleased l) pu de) (St lk sh pr CIdle pu (de ++ [l])).

Inductive reachable : state -> Prop :=
| reach_init : reachable init
| reach_step s s' : reachable s -> step s s' -> reachable s'.

(** What a call of [get_danmu_list] has taken out of the shared list and
    not returned yet. *)
Definition in_flight (s : state) : danmu_list :=
  match cons s with
  | CCleared l | CReleased l => l
  | _ => []
  end.

Definition holds_lock_p (p : producer) : bool :=
  match p with
  | PIdle => false
  | _ => true
  end.

Definition holds_lock_c (c : consumer) : bool :=
  match c with
  | CLocked | CCopied _ | CCleared _ => true
  | _ => false
  end.

(** The lock is held by the thread that is in its critical section, and
    the copy taken under the lock is the shared list until it is cleared. *)
Definition invariant (s : state) : Prop :=
  (lock s = Some Producer <-> holds_lock_p (prod s) = true)
  /\ (lock s = Some Consumer <-> holds_lock_c (cons s) = true)
  /\ match cons s with
     | CCopied l => l = shared s
     | CCleared _ => shared s = []
     | _ => True
     end
  /\ concat (delivered s) ++ in_flight s ++ shared s = pushed s.

End Threads.

(** The game thread and the decoder thread as a sequence of whole critical
    sections: an append, or a call of [get_danmu_list]. *)
Inductive action :=
| Push (c : command)
| Drain.

(** The lists the calls return, in order, and the list that is left. *)
Fixpoint run_actions (acts : list action) (q : danmu_list)
    : list danmu_list * danmu_list :=
  match acts with
  | [] => ([], q)
  | Push c :: acts' => run_actions acts' (q ++ [c])
  | Drain :: acts' =>
      let '(got, q') := get_danmu_list q in
      let '(outs, q'') := run_actions acts' q' in
      (got :: outs, q'')
  end.

Fixpoint pushes (acts : list action) : danmu_list :=
  match acts with
  | [] => []
  | Push c :: acts' => c :: pushes acts'
  | Drain :: acts' => pushes acts'
  end.

(** ** The vocabulary of the specification *)

(** A structurally valid uncompressed frame: at least the 16-byte header,
    a length field equal to the frame's size, a version other than 2. *)
Definition uncompressed_frame (f : bytes) : bool :=
  match header f with
  | Some (packet_len, ver, _) =>
      (16 <=? Z.of_nat (List.length f))
      && (packet_len =? Z.of_nat (List.length f))
      && negb (ver =? 2)
  | None => false
  end.

(** What the frame [f], of a version other than 2, appends (lines
    72-143). *)
Definition leaf_commands {R : PyRuntime} (f : bytes) : list command :=
  match header f with
  | Some (_, ver, op) =>
      if ver =? 1 then [] else if op =? 5 then on_message f else []
  | None => []
  end.

(** A buffer that holds one frame and no more: the length field covers
    the buffer, [ver] and [op] are its version and opcode. *)
Definition lone_frame (data : bytes) (ver op : Z) : Prop :=
  exists packet_len,
    header data = Some (packet_len, ver, op)
    /\ Z.of_nat (List.length data) <= packet_len.

(** Zero, one or two markers, all ASCII or all full-width. *)
Definition bangs (full_width : bool) (n : nat) : str :=
  repeat (if full_width then fw_bang else 33) n.

Definition op_of_marks (n : nat) : string :=
  match n with
  | O => "open"
  | 1%nat => "check"
  | _ => "uncheck"
  end.

Definition is_letter (c : Z) : bool :=
  ((65 <=? c) && (c <=? 90)) || ((97 <=? c) && (c <=? 122)).

(** The index of a letter in the alphabet, [a] and [A] are 0. *)
Definition letter_index (c : Z) : Z :=
  if c <=? 90 then c - 65 else c - 97.

(** [str(r)] for [0 <= r <= 99]. *)
Definition number_text (r : Z) : str :=
  if r <? 10 then [48 + r] else [48 + r / 10; 48 + r mod 10].

(** The text does not go on with a decimal digit. *)
Definition no_digit_next {R : PyRuntime} (rest : str) : Prop :=
  match rest with
  | [] => True
  | x :: _ => decimal x = None
  end.

(** The JSON lacks a key the handler of its [cmd] reads. *)
Inductive lacks_keys (jd : json) : Prop :=
| lacks_cmd :
    getitem jd (lit "cmd") = None -> lacks_keys jd
| lacks_gift_data cmd :
    getitem jd (lit "cmd") = Some cmd -> eq_lit cmd (lit "SEND_GIFT") = true ->
    getitem jd (lit "data") = None -> lacks_keys jd
| lacks_gift_field cmd d k :
    getitem jd (lit "cmd") = Some cmd -> eq_lit cmd (lit "SEND_GIFT") = true ->
    getitem jd (lit "data") = Some d ->
    In k [lit "uname"; lit "num"; lit "giftName"] -> getitem d k = None ->
    lacks_keys jd
| lacks_guard_data cmd :
    getitem jd (lit "cmd") = Some cmd -> eq_lit cmd (lit "GUARD_BUY") = true ->
    getitem jd (lit "data") = None -> lacks_keys jd
| lacks_guard_username cmd d :
    getitem jd (lit "cmd") = Some cmd -> eq_lit cmd (lit "GUARD_BUY") = true ->
    getitem jd (lit "data") = Some d -> getitem d (lit "username") = None ->
    lacks_keys jd
| lacks_chat_info cmd :
    getitem jd (lit "cmd") = Some cmd -> eq_lit cmd (lit "DANMU_MSG") = true ->
    getitem jd (lit "info") = None -> lacks_keys jd
| lacks_chat_user cmd info :
    getitem jd (lit "cmd") = Some cmd -> eq_lit cmd (lit "DANMU_MSG") = true ->
    getitem jd (lit "info") = Some info ->
    (i2 <- getindex info 2 ;; getindex i2 1) = None -> lacks_keys jd
| lacks_chat_text cmd info :
    getitem jd (lit "cmd") = Some cmd -> eq_lit cmd (lit "DANMU_MSG") = true ->
    getitem jd (lit "info") = Some info ->
    getindex info 1 = None -> lacks_keys jd.

(** The [cmd] is none of the three the handler knows. *)
Definition unknown_cmd (jd : json) : Prop :=
  exists cmd,
    getitem jd (lit "cmd") = Some cmd
    /\ eq_lit cmd (lit "SEND_GIFT") = false
    /\ eq_lit cmd (lit "GUARD_BUY") = false
    /\ eq_lit cmd (lit "DANMU_MSG") = false.

(** ** A runtime that computes

    [ref_runtime] implements [PyRuntime] on the inputs the examples below
    use: a zlib stream made of stored (uncompressed) deflate blocks,
    well-formed UTF-8, JSON without floats and without [\u] escapes, and
    three blocks of decimal digits.  Each part answers as CPython does on
    what it accepts; none of the general theorems depends on it. *)

Module Ref.

(** *** UTF-8 *)

Definition cont (y : Z) : bool := (128 <=? y) && (y <=? 191).

Fixpoint utf8_decode (b : list Z) : str :=
  match b with
  | [] => []
  | x :: r =>
      if x <? 128 then x :: utf8_decode r
      else if (194 <=? x) && (x <=? 223) then
        match r with
        | y :: r1 =>
            if cont y then ((x - 192) * 64 + (y - 128)) :: utf8_decode r1
            else utf8_decode r
        | [] => []
        end
      else if (224 <=? x) && (x <=? 239) then
        match r with
        | y :: z :: r2 =>
            if cont y && cont z
               && negb ((x =? 224) && (y <? 160))
               && negb ((x =? 237) && (159 <? y))
            then ((x - 224) * 4096 + (y - 128) * 64 + (z - 128))
                   :: utf8_decode r2
            else utf8_decode r
        | _ => utf8_decode r
        end
      else if (240 <=? x) && (x <=? 244) then
        match r with
        | y :: z :: w :: r3 =>
            if cont y && cont z && cont w
               && negb ((x =? 240) && (y <? 144))
               && negb ((x =? 244) && (143 <? y))
            then ((x - 240) * 262144 + (y - 128) * 4096
                  + (z - 128) * 64 + (w - 128)) :: utf8_decode r3
            else utf8_decode r
        | _ => utf8_decode r
        end
      else utf8_decode r
  end.

Definition utf8_decode_ignore (b : bytes) : str :=
  utf8_decode (map byte_val b).

(** *** JSON *)

Fixpoint skip_ws (s : str) : str :=
  match s with
  | c :: s' =>
      if (c =? 32) || (c =? 9) || (c =? 10) || (c =? 13)
      then skip_ws s' else s
  | [] => []
  end.

(** The characters of a string after its opening quote. *)
Fixpoint string_body (s acc : str) : option (str * str) :=
  match s with
  | [] => None
  | c :: s' =>
      if c =? 34 then Some (rev acc, s')
      else if c <? 32 then None
      else if c =? 92 then
        match s' with
        | e :: s'' =>
            if (e =? 34) || (e =? 92) || (e =? 47)
            then string_body s'' (e :: acc)
            else if e =? 110 then string_body s'' (10 :: acc)
            else if e =? 116 then string_body s'' (9 :: acc)
            else if e =? 114 then string_body s'' (13 :: acc)
            else None
        | [] => None
        end
      else string_body s' (c :: acc)
  end.

Fixpoint digit_run (s : str) (acc : Z) : Z * str :=
  match s with
  | c :: s' =>
      if (48 <=? c) && (c <=? 57) then digit_run s' (acc * 10 + (c - 48))
      else (acc, s)
  | [] => (acc, [])
  end.

Definition is_digit (c : Z) : bool := (48 <=? c) && (c <=? 57).

(** An integer; a fraction or an exponent is outside this parser. *)
Definition number (s : str) : option (json * str) :=
  let '(neg, s1) :=
    match s with
    | 45 :: s' => (true, s')
    | _ => (false, s)
    end in
  match s1 with
  | c :: c2 :: _ =>
      if is_digit c && negb ((c =? 48) && is_digit c2) then
        let '(v, rest) := digit_run s1 0 in
        match rest with
        | 46 :: _ | 101 :: _ | 69 :: _ => None
        | _ => Some (JInt (if neg then - v else v), rest)
        end
      else None
  | [c] => if is_digit c then Some (JInt (if neg then - (c - 48) else c - 48), [])
           else None
  | [] => None
  end.

Fixpoint prefix_of (w s : str) : option str :=
  match w, s with
  | [], _ => Some s
  | x :: w', y :: s' => if x =? y then prefix_of w' s' else None
  | _ :: _, [] => None
  end.

(** A later binding of a key replaces the earlier one in place. *)
Fixpoint dict_set (k : str) (v : json) (d : list (str * json))
    : list (str * json) :=
  match d with
  | [] => [(k, v)]
  | (k', v') :: d' =>
      if str_eqb k k' then (k, v) :: d' else (k', v') :: dict_set k v d'
  end.

Fixpoint value (fuel : nat) (s : str) : option (json * str) :=
  match fuel with
  | O => None
  | S f =>
      match skip_ws s with
      | 123 :: r =>
          match skip_ws r with
          | 125 :: r' => Some (JDict [], r')
          | r' => members f r' []
          end
      | 91 :: r =>
          match skip_ws r with
          | 93 :: r' => Some (JList [], r')
          | r' => elements f r' []
          end
      | 34 :: r =>
          match string_body r [] with
          | Some (t, r') => Some (JStr t, r')
          | None => None
          end
      | 116 :: r =>
          match prefix_of (lit "rue") r with
          | Some r' => Some (JBool true, r')
          | None => None
          end
      | 102 :: r =>
          match prefix_of (lit "alse") r with
          | Some r' => Some (JBool false, r')
          | None => None
          end
      | 110 :: r =>
          match prefix_of (lit "ull") r with
          | Some r' => Some (JNull, r')
          | None => None
          end
      | s' => number s'
      end
  end
with elements (fuel : nat) (s : str) (acc : list json)
    : option (json * str) :=
  match fuel with
  | O => None
  | S f =>
      match value f s with
      | Some (v, r) =>
          match skip_ws r with
          | 44 :: r' => elements f r' (v :: acc)
          | 93 :: r' => Some (JList (rev (v :: acc)), r')
          | _ => None
          end
      | None => None
      end
  end
with members (fuel : nat) (s : str) (acc : list (str * json))
    : option (json * str) :=
  match fuel with
  | O => None
  | S f =>
      match skip_ws s with
      | 34 :: r =>
          match string_body r [] with
          | Some (k, r1) =>
              match skip_ws r1 with
              | 58 :: r2 =>
                  match value f r2 with
                  | Some (v, r3) =>
                      match skip_ws r3 with
                      | 44 :: r4 => members f r4 (dict_set k v acc)
                      | 125 :: r4 => Some (JDict (dict_set k v acc), r4)
                      | _ => None
                      end
                  | None => None
                  end
              | _ => None
              end
          | None => None
          end
      | _ => None
      end
  end.

Definition json_loads (s : str) : option json :=
  match value (S (List.length s)) s with
  | Some (j, r) =>
      match skip_ws r with
      | [] => Some j
      | _ => None
      end
  | None => None
  end.
(** *** zlib: stored blocks only *)

Definition adler32 (b : list Z) : Z :=
  let '(a, c) :=
    fold_left (fun '(a, c) x =>
                 let a' := (a + x) mod 65521 in (a', (c + a') mod 65521))
              b (1, 0) in
  c * 65536 + a.

(** The deflate blocks after the two header bytes: each one a header
    byte whose low bit marks the last block and whose next two bits are
    the block type (zero: stored), [LEN] and its complement in little
    endian, and [LEN] bytes. *)
Fixpoint stored_blocks (fuel : nat) (b out : list Z)
    : option (list Z * list Z) :=
  match fuel with
  | O => None
  | S f =>
      match b with
      | h :: l0 :: l1 :: n0 :: n1 :: rest =>
          let len := l0 + 256 * l1 in
          if (Z.land h 6 =? 0) && (n0 + 256 * n1 =? 65535 - len)
             && (len <=? Z.of_nat (List.length rest)) then
            let out' := out ++ firstn (Z.to_nat len) rest in
            let rest' := skipn (Z.to_nat len) rest in
            if Z.land h 1 =? 1 then Some (out', rest')
            else stored_blocks f rest' out'
          else None
      | _ => None
      end
  end.

Definition byte_of (z : Z) : byte :=
  match Byte.of_N (Z.to_N z) with
  | Some b => b
  | None => "000"%byte
  end.

Definition zlib_decompress (b : bytes) : option bytes :=
  match map byte_val b with
  | cmf :: flg :: rest =>
      if (Z.land cmf 15 =? 8) && (Z.shiftr cmf 4 <=? 7)
         && ((cmf * 256 + flg) mod 31 =? 0) && (Z.land flg 32 =? 0) then
        match stored_blocks (List.length rest) rest [] with
        | Some (out, a3 :: a2 :: a1 :: a0 :: _) =>
            if ((a3 * 256 + a2) * 256 + a1) * 256 + a0 =? adler32 out
            then Some (map byte_of out) else None
        | _ => None
        end
      else None
  | _ => None
  end.

(** *** Decimal digits: Basic Latin, Arabic-Indic, Fullwidth *)

Definition decimal (c : Z) : option Z :=
  if (48 <=? c) && (c <=? 57) then Some (c - 48)
  else if (1632 <=? c) && (c <=? 1641) then Some (c - 1632)
  else if (65296 <=? c) && (c <=? 65305) then Some (c - 65296)
  else None.

Lemma decimal_ascii c :
  0 <= c < 128 ->
  decimal c = if (48 <=? c) && (c <=? 57) then Some (c - 48) else None.
Proof.
  intros Hc. unfold decimal.
  destruct ((48 <=? c) && (c <=? 57)); [reflexivity|].
  replace (1632 <=? c) with false by (symmetry; apply Z.leb_gt; lia).
  replace (65296 <=? c) with false by (symmetry; apply Z.leb_gt; lia).
  reflexivity.
Qed.
(** The value holds ASCII characters only. *)
Fixpoint ascii_only (j : json) : bool :=
  match j with
  | JStr s | JFloat s => forallb (fun c => c <? 128) s
  | JList l => forallb ascii_only l
  | JDict d =>
      (fix go (d : list (str * json)) : bool :=
         match d with
         | [] => true
         | (k, v) :: d' =>
             forallb (fun c => c <? 128) k && ascii_only v && go d'
         end) d
  | _ => true
  end.

End Ref.

#[export] Instance ref_runtime : PyRuntime := {|
  zlib_decompress := Ref.zlib_decompress;
  utf8_decode_ignore := Ref.utf8_decode_ignore;
  json_loads := Ref.json_loads;
  decimal := Ref.decimal;
  decimal_ascii := Ref.decimal_ascii;
  decimal_fw_bang := eq_refl;
  print_ok := fun _ => true
|}.

(** The same runtime with an ASCII [sys.stdout]: [print] raises on a
    character from U+0080 on.  (A character that [repr] writes as an
    escape would pass in Python and does not here; the examples hold
    none.) *)
Definition ascii_stdout : PyRuntime := {|
  zlib_decompress := Ref.zlib_decompress;
  utf8_decode_ignore := Ref.utf8_decode_ignore;
  json_loads := Ref.json_loads;
  decimal := Ref.decimal;
  decimal_ascii := Ref.decimal_ascii;
  decimal_fw_bang := eq_refl;
  print_ok := forallb Ref.ascii_only
|}.

(** ** Building wire data for the examples *)

Module Wire.

(** The [n] low bytes of [v], most significant first. *)
Fixpoint be (n : nat) (v : Z) : bytes :=
  match n with
  | O => []
  | S n' => be n' (v / 256) ++ [Ref.byte_of (v mod 256)]
  end.

Fixpoint utf8_encode (s : str) : list Z :=
  match s with
  | [] => []
  | c :: s' =>
      (if c <? 128 then [c]
       else if c <? 2048 then [192 + c / 64; 128 + c mod 64]
       else if c <? 65536 then
         [224 + c / 4096; 128 + (c / 64) mod 64; 128 + c mod 64]
       else [240 + c / 262144; 128 + (c / 4096) mod 64;
             128 + (c / 64) mod 64; 128 + c mod 64])
      ++ utf8_encode s'
  end.

Definition utf8 (s : str) : bytes := map Ref.byte_of (utf8_encode s).

Fixpoint decimal_text (fuel : nat) (n : Z) (acc : str) : str :=
  match fuel with
  | O => acc
  | S f =>
      if n <? 10 then (48 + n) :: acc
      else decimal_text f (n / 10) ((48 + n mod 10) :: acc)
  end.

(** [str(n)] for [n >= 0]. *)
Definition str_of_int (n : Z) : str := decimal_text (Z.to_nat n) n [].

Definition quoted (s : str) : str := [34] ++ s ++ [34].

(** JSON text of a value whose strings need no escape. *)
Fixpoint dumps (j : json) : str :=
  match j with
  | JNull => lit "null"
  | JBool true => lit "true"
  | JBool false => lit "false"
  | JInt z => if z <? 0 then 45 :: str_of_int (- z) else str_of_int z
  | JFloat r => r
  | JStr s => quoted s
  | JList l =>
      [91] ++ (fix go (l : list json) : str :=
                 match l with
                 | [] => []
                 | [x] => dumps x
                 | x :: l' => dumps x ++ [44] ++ go l'
                 end) l ++ [93]
  | JDict d =>
      [123] ++ (fix go (d : list (str * json)) : str :=
                  match d with
                  | [] => []
                  | [(k, v)] => quoted k ++ [58] ++ dumps v
                  | (k, v) :: d' => quoted k ++ [58] ++ dumps v ++ [44] ++ go d'
                  end) d ++ [125]
  end.

(** A frame: the 16-byte header ([length], header length 16, [version],
    [opcode], sequence 1) and the payload. *)
Definition packet (ver op : Z) (payload : bytes) : bytes :=
  be 4 (16 + Z.of_nat (List.length payload)) ++ be 2 16 ++ be 2 ver
    ++ be 4 op ++ be 4 1 ++ payload.

(** A business frame (version 0, opcode 5) that carries [j]. *)
Definition business_packet (j : json) : bytes :=
  packet 0 5 (utf8 (dumps j)).

(** A zlib stream of one stored block that holds [b] (under 64 KiB). *)
Definition stored (b : bytes) : bytes :=
  let n := Z.of_nat (List.length b) in
  map Ref.byte_of [120; 1; 1; n mod 256; n / 256;
                   (65535 - n) mod 256; (65535 - n) / 256]
    ++ b ++ be 4 (Ref.adler32 (map byte_val b)).

Definition chat (user text : str) : json :=
  JDict [(lit "cmd", JStr (lit "DANMU_MSG"));
         (lit "info", JList [JList []; JStr text;
                             JList [JInt 7; JStr user]])].

Definition send_gift (uname gift_name : str) (num : Z) : json :=
  JDict [(lit "cmd", JStr (lit "SEND_GIFT"));
         (lit "data", JDict [(lit "uname", JStr uname);
                             (lit "num", JInt num);
                             (lit "giftName", JStr gift_name)])].

Definition guard_buy (username : str) : json :=
  JDict [(lit "cmd", JStr (lit "GUARD_BUY"));
         (lit "data", JDict [(lit "username", JStr username)])].
End Wire.

(** ** Example data *)

Module Ex.

(** bob writes "A5", amy writes U+FF01 "12b". *)
Definition bob_opens : bytes :=
  Wire.business_packet (Wire.chat (lit "bob") (lit "A5")).
Definition amy_checks : bytes :=
  Wire.business_packet (Wire.chat (lit "amy") (fw_bang :: lit "12b")).
Definition cy_gift : bytes :=
  Wire.business_packet (Wire.send_gift (lit "cy") tracked_gift 3).
Definition cy_other_gift : bytes :=
  Wire.business_packet (Wire.send_gift (lit "cy") (lit "rose") 3).
Definition dee_guard : bytes :=
  Wire.business_packet (Wire.guard_buy (lit "dee")).

Definition bob_cmd : command := (JStr (lit "bob"), "open"%string, Pos 0 5).
Definition amy_cmd : command := (JStr (lit "amy"), "check"%string, Pos 1 12).
Definition cy_cmd : command := (JStr (lit "cy"), "gift"%string, Txt []).
Definition dee_cmd : command := (JStr (lit "dee"), "gift"%string, Txt []).

(** A version-2 frame around a real zlib stream of the two chat frames. *)
Definition compressed_pair : bytes :=
  Wire.packet 2 5 (Wire.stored (bob_opens ++ amy_checks)).

(** A version-2 frame whose payload is no zlib stream. *)
Definition bad_zlib : bytes := Wire.packet 2 5 (Wire.utf8 (lit "oops")).

(** A business frame whose payload is no JSON, one without [cmd], one
    with a [cmd] the handler does not know. *)
Definition bad_json : bytes := Wire.packet 0 5 (Wire.utf8 (lit "{oops")).
Definition no_cmd : bytes :=
  Wire.business_packet (JDict [(lit "data", JDict [])]).
Definition other_cmd : bytes :=
  Wire.business_packet (JDict [(lit "cmd", JStr (lit "WELCOME"))]).

(** A frame whose length field is 8. *)
Definition short_length : bytes :=
  Wire.be 4 8 ++ Wire.be 2 16 ++ Wire.be 2 0 ++ Wire.be 4 5 ++ Wire.be 4 1.

End Ex.

(** ** The patterns, declaratively

    [matches r p i m m']: the pattern [r] matches exactly the string [p]
    when it starts at position [i], and records the spans of its groups
    in front of [m]. *)
Inductive matches {R : PyRuntime}
    : regex -> str -> nat -> captures -> captures -> Prop :=
| M_Eps i m : matches Eps [] i m m
| M_Chr c i m : matches (Chr c) [c] i m m
| M_Rng lo hi x i m : lo <= x <= hi -> matches (Rng lo hi) [x] i m m
| M_Dig x v i m : decimal x = Some v -> matches Dig [x] i m m
| M_Cat r1 r2 p1 p2 i m m1 m2 :
    matches r1 p1 i m m1 ->
    matches r2 p2 (i + List.length p1)%nat m1 m2 ->
    matches (Cat r1 r2) (p1 ++ p2) i m m2
| M_AltL r1 r2 p i m m' : matches r1 p i m m' -> matches (Alt r1 r2) p i m m'
| M_AltR r1 r2 p i m m' : matches r2 p i m m' -> matches (Alt r1 r2) p i m m'
| M_OptSome r p i m m' : matches r p i m m' -> matches (Opt r) p i m m'
| M_OptNone r i m : matches (Opt r) [] i m m
| M_Grp n r p i m m' :
    matches r p i m m' ->
    matches (Grp n r) p i m ((n, (i, (i + List.length p)%nat)) :: m').

(** ** The shape of a command

    What [process_danmu_list] relies on: a [gift] carries [""], a
    [difficulty] carries [EASY] or [NORMAL], and every other entry is
    [open], [check] or [uncheck] with a cell whose column is one of the 26
    letters. *)
Definition well_formed (c : command) : bool :=
  let '(_, op, a) := c in
  match a with
  | Txt s =>
      (String.eqb op "gift" && str_eqb s [])
      || (String.eqb op "difficulty"
          && (str_eqb s (lit "EASY") || str_eqb s (lit "NORMAL")))
  | Pos col _ =>
      (String.eqb op "open" || String.eqb op "check" || String.eqb op "uncheck")
      && (0 <=? col) && (col <=? 25)
  end.

(** ** [startup] and [send_heartbeat]: the frames the client sends *)

(** The digit [d < 16] as [hex] writes it. *)
Definition hex_digit (d : Z) : Z := if d <? 10 then 48 + d else 87 + d.

Fixpoint hex_digits (fuel : nat) (n : Z) (acc : str) : str :=
  match fuel with
  | O => acc
  | S f =>
      if n <? 16 then hex_digit n :: acc
      else hex_digits f (n / 16) (hex_digit (n mod 16) :: acc)
  end.

(** [hex(n)[2:]] for [n >= 0]. *)
Definition py_hex (n : Z) : str := hex_digits (S (Z.to_nat n)) n [].

Definition hex_value (c : Z) : option Z :=
  if (48 <=? c) && (c <=? 57) then Some (c - 48)
  else if (97 <=? c) && (c <=? 102) then Some (c - 87)
  else if (65 <=? c) && (c <=? 70) then Some (c - 55)
  else None.

Definition is_space (c : Z) : bool :=
  (c =? 32) || ((9 <=? c) && (c <=? 13)).

(** [bytes.fromhex(s)]: two hex digits a byte, ASCII whitespace allowed in
    front of a pair; [None] is [ValueError]. *)
Fixpoint fromhex (s : str) : option bytes :=
  match s with
  | [] => Some []
  | a :: s1 =>
      if is_space a then fromhex s1
      else
        match hex_value a, s1 with
        | Some x, b :: s2 =>
            match hex_value b, fromhex s2 with
            | Some y, Some rest => Some (Ref.byte_of (16 * x + y) :: rest)
            | _, _ => None
            end
        | _, _ => None
        end
  end.

(** Lines 37-39: the hex text of the join frame for the room. *)
Definition data_raw (room_id : str) : str :=
  lit "000000" ++ py_hex (27 + Z.of_nat (List.length room_id))
    ++ lit "0010000100000007000000017b22726f6f6d6964223a"
    ++ concat (map py_hex room_id) ++ lit "7d".

(** Line 42: what [startup] sends first; [None] when [bytes.fromhex]
    raises. *)
Definition startup_frame (room_id : str) : option bytes :=
  fromhex (data_raw room_id).

(** Lines 48-51: what [send_heartbeat] sends every 30 seconds. *)
Definition hb : str := lit "00000010001000010000000200000001".
Definition heartbeat_frame : option bytes := fromhex hb.

(** The payload of the join frame as text: [{"roomid":] the room [}]. *)
Definition join_payload (room_id : str) : str :=
  [123] ++ Wire.quoted (lit "roomid") ++ [58] ++ room_id ++ [125].

(** ** Nested frames

    A buffer the server sends: frames of a version other than 2, and
    version-2 frames whose payload decompresses to such a buffer again. *)
#[local] Unset Elimination Schemes.
Inductive packet_tree :=
| Plain (f : bytes)
| Packed (f : bytes) (inner : list packet_tree).
#[local] Set Elimination Schemes.

Definition tree_bytes (t : packet_tree) : bytes :=
  match t with
  | Plain f => f
  | Packed f _ => f
  end.

Definition forest_bytes (ts : list packet_tree) : bytes :=
  concat (map tree_bytes ts).

(** The frames of a tree, the wrapping version-2 frames included. *)
Fixpoint tree_size (t : packet_tree) : nat :=
  match t with
  | Plain _ => 1%nat
  | Packed _ inner =>
      S ((fix go (l : list packet_tree) : nat :=
            match l with
            | [] => 0%nat
            | x :: l' => (tree_size x + go l')%nat
            end) inner)
  end.

Definition forest_size (ts : list packet_tree) : nat :=
  (fix go (l : list packet_tree) : nat :=
     match l with
     | [] => 0%nat
     | x :: l' => (tree_size x + go l')%nat
     end) ts.

Section Trees.
Context {R : PyRuntime}.

Fixpoint valid_tree (t : packet_tree) : Prop :=
  match t with
  | Plain f => uncompressed_frame f = true
  | Packed f inner =>
      (16 <= List.length f)%nat
      /\ (exists op, header f = Some (Z.of_nat (List.length f), 2, op))
      /\ zlib_decompress (skipn 16 f) = Some (forest_bytes inner)
      /\ inner <> []
      /\ (fix all (l : list packet_tree) : Prop :=
            match l with
            | [] => True
            | x :: l' => valid_tree x /\ all l'
            end) inner
  end.

Definition valid_forest (ts : list packet_tree) : Prop :=
  (fix all (l : list packet_tree) : Prop :=
     match l with
     | [] => True
     | x :: l' => valid_tree x /\ all l'
     end) ts.

(** What the frames of a tree yield, in the order [decode_danmu] appends
    it: the last frame of a buffer first. *)
Fixpoint tree_commands (t : packet_tree) : list command :=
  match t with
  | Plain f => leaf_commands f
  | Packed _ inner =>
      (fix go (l : list packet_tree) : list command :=
         match l with
         | [] => []
         | x :: l' => go l' ++ tree_commands x
         end) inner
  end.

Definition forest_commands (ts : list packet_tree) : list command :=
  (fix go (l : list packet_tree) : list command :=
     match l with
     | [] => []
     | x :: l' => go l' ++ tree_commands x
     end) ts.
End Trees.

(** ** [game.py]: the consumer *)

(** [str(n)] for an integer. *)
Definition py_str (n : Z) : str :=
  if n <? 0 then 45 :: Wire.decimal_text (S (Z.to_nat (- n))) (- n) []
  else Wire.decimal_text (S (Z.to_nat n)) n [].

(** The class [Timer], lines 60-104.  [pygame.time.get_ticks()] is the
    argument [now]; the label and the event belong to the caller:
    [check] reports the text it sets and whether it calls the event. *)
Module Timer.

Record t := {
  running : bool;
  start_time : option Z;
  interval : option Z;
  has_label : bool;
  show_label_interval : option Z
}.

(** [__init__] *)
Definition init (label : bool) (show : option Z) : t :=
  {| running := false; start_time := None; interval := None;
     has_label := label; show_label_interval := show |}.

Definition start (iv now : Z) (tm : t) : t :=
  {| running := true; start_time := Some now; interval := Some iv;
     has_label := has_label tm;
     show_label_interval := show_label_interval tm |}.

Definition stop (tm : t) : t :=
  {| running := false; start_time := start_time tm; interval := interval tm;
     has_label := has_label tm;
     show_label_interval := show_label_interval tm |}.

Record checked := {
  after : t;
  label_text : option str;   (* the argument of [set_text], when called *)
  fired : bool               (* whether [on_time_event] is called *)
}.

(** [check]; [None] is the [TypeError] of adding [None]. *)
Definition check (now : Z) (tm : t) : option checked :=
  if negb (running tm) then
    Some {| after := tm; label_text := None; fired := false |}
  else
    st <- start_time tm ;;
    iv <- interval tm ;;
    let countdown := st + iv - now in
    let text :=
      if has_label tm then
        Some (if (countdown >? 0)
                 && match show_label_interval tm with
                    | None => true
                    | Some s => countdown <=? s
                    end
              then py_str (countdown / 1000) else [])
      else None in
    if countdown <=? 0
    then Some {| after := stop tm; label_text := text; fired := true |}
    else Some {| after := tm; label_text := text; fired := false |}.

(** [check] called at each of [times]: whether the event was called at
    each call, and the timer at the end. *)
Fixpoint checks (times : list Z) (tm : t) : option (list bool * t) :=
  match times with
  | [] => Some ([], tm)
  | now :: times' =>
      c <- check now tm ;;
      r <- checks times' (after c) ;;
      Some (fired c :: fst r, snd r)
  end.

End Timer.

(** [==] between two values that come out of [json.loads]; a string is
    equal to a string of the same characters and to nothing else. *)
Class PyEq := {
  py_eq : json -> json -> bool;
  py_eq_str_l : forall s j, py_eq (JStr s) j = eq_lit j s;
  py_eq_str_r : forall j s, py_eq j (JStr s) = eq_lit j s
}.

Module Game.

(** The attributes [set_difficulty] writes. *)
Record settings := {
  difficulty : arg;
  n_rows : Z;
  n_cols : Z;
  n_mines : Z
}.

Definition BOARD_SIZE : Z := 550.
Definition PLAYER_INPUT_INTERVAL_MS : Z := 60000.

(** U+5F53 U+524D U+96BE U+5EA6 U+FF1A, the text in front of the
    difficulty. *)
Definition hint_prefix : str := [24403; 21069; 38590; 24230; 65306].

Definition is_text (a : arg) (s : str) : bool :=
  match a with
  | Txt t => str_eqb t s
  | Pos _ _ => false
  end.

(** [set_difficulty], lines 310-326: the attributes after the call and
    the text of the hint; [None] when the concatenation raises
    [TypeError], after the attributes are written. *)
Definition set_difficulty (d : arg) (g : settings) : settings * option str :=
  let g' :=
    if is_text d (lit "EASY") then
      {| difficulty := d; n_rows := 10; n_cols := 10; n_mines := 10 |}
    else if is_text d (lit "NORMAL") then
      {| difficulty := d; n_rows := 16; n_cols := 16; n_mines := 40 |}
    else
      {| difficulty := d; n_rows := n_rows g; n_cols := n_cols g;
         n_mines := n_mines g |} in
  (g', match d with
       | Txt s => Some (hint_prefix ++ s)
       | Pos _ _ => None
       end).

(** Line 332: [BOARD_SIZE // min(n_rows, n_cols)]; [None] is
    [ZeroDivisionError]. *)
Definition tile_size (g : settings) : option Z :=
  let m := Z.min (n_rows g) (n_cols g) in
  if m =? 0 then None else Some (BOARD_SIZE / m).

(** [set_game_parameter], lines 370-382.  [parameter] is one of the
    three names of the docstring, [value] an integer, a text or [None];
    [int] of a text is the builtin, [None] where it raises
    [ValueError]. *)
Inductive parameter := P_n_rows | P_n_cols | P_n_mines.

Inductive value :=
| VInt (z : Z)
| VStr (s : str)
| VNone.

(** [not value] *)
Definition falsy (v : value) : bool :=
  match v with
  | VInt z => z =? 0
  | VStr [] => true
  | VStr (_ :: _) => false
  | VNone => true
  end.

(** [setattr(self, parameter, value)] *)
Definition setattr (p : parameter) (v : Z) (g : settings) : settings :=
  match p with
  | P_n_rows => {| difficulty := difficulty g; n_rows := v;
                   n_cols := n_cols g; n_mines := n_mines g |}
  | P_n_cols => {| difficulty := difficulty g; n_rows := n_rows g;
                   n_cols := v; n_mines := n_mines g |}
  | P_n_mines => {| difficulty := difficulty g; n_rows := n_rows g;
                    n_cols := n_cols g; n_mines := v |}
  end.

Inductive parameter_outcome :=
| ValueError                          (* line 375: nothing is written *)
| ZeroDivision (g : settings)         (* line 332, in [reset_game] *)
| ParameterSet (g : settings) (returned tile : Z).

Section GameParameter.
Variable int_of_text : str -> option Z.

(** [int(value)], on a value that is not [None]. *)
Definition py_int_of (v : value) : option Z :=
  match v with
  | VInt z => Some z
  | VStr s => int_of_text s
  | VNone => None
  end.

(** The attributes after the call, the value returned and the tile size
    [reset_game] computes from them; the placement of the widgets is
    left out. *)
Definition set_game_parameter (p : parameter) (max_value : Z) (v : value)
    (g : settings) : parameter_outcome :=
  let v1 := if falsy v then VInt 1 else v in
  match py_int_of v1 with
  | None => ValueError
  | Some z =>
      let z' := Z.min (Z.max 1 z) max_value in
      let g1 := setattr p z' g in
      let g2 := {| difficulty := difficulty g1; n_rows := n_rows g1;
                   n_cols := n_cols g1;
                   n_mines := Z.min (n_mines g1)
                                    (n_rows g1 * n_cols g1 - 1) |} in
      match tile_size g2 with
      | None => ZeroDivision g2
      | Some t => ParameterSet g2 z' t
      end
  end.
End GameParameter.

(** The calls [process_danmu_list] makes on the timer, on the board and
    on [on_difficulty_change]. *)
Inductive call :=
| TimerStart (ms : Z)
| DifficultyChange (d : arg)
| OpenTile (i j : Z)
| CheckTile (i j : Z)
| UncheckTile (i j : Z).

Record handled := {
  player_after : json;
  calls : list call;
  raised : bool
}.

Section Loop.
Context {E : PyEq}.

(** Lines 434-453, the body of the loop for one entry: [player] is
    [self.player], [status] and [rows] are [self.board.game_status] and
    [self.board.n_rows]. *)
Definition on_danmu (player status : json) (rows : Z) (danmu : command)
    : handled :=
  let '(name, op, a) := danmu in
  if eq_lit player (lit "all") || py_eq player name then
    if String.eqb op "gift" then
      if eq_lit player (lit "all")
      then {| player_after := name;
              calls := [TimerStart PLAYER_INPUT_INTERVAL_MS];
              raised := false |}
      else {| player_after := player; calls := []; raised := false |}
    else if String.eqb op "difficulty" then
      if negb (eq_lit status (lit "running"))
      then {| player_after := player; calls := [DifficultyChange a];
              raised := false |}
      else {| player_after := player; calls := []; raised := false |}
    else
      let timer :=
        if negb (eq_lit player (lit "all"))
        then [TimerStart PLAYER_INPUT_INTERVAL_MS] else [] in
      match a with
      | Pos col row =>
          let i := rows - row - 1 in
          let j := col in
          {| player_after := player;
             calls :=
               timer ++
               (if String.eqb op "open" then [OpenTile i j]
                else if String.eqb op "check" then [CheckTile i j]
                else if String.eqb op "uncheck" then [UncheckTile i j]
                else []);
             raised := false |}
      | Txt _ => {| player_after := player; calls := timer; raised := true |}
      end
  else {| player_after := player; calls := []; raised := false |}.

(** The board and the rest of the game are not in these files: [W] is
    their state, [status] and [rows] read it, and [react] is what a call
    does to it, with whether [reset_player] ran meanwhile (the board
    reports a lost or won game through [on_status_change]). *)
Variable W : Type.
Variable status : W -> json.
Variable rows : W -> Z.
Variable react : call -> W -> W * bool.

Fixpoint perform (cs : list call) (player : json) (w : W) : json * W :=
  match cs with
  | [] => (player, w)
  | TimerStart _ :: cs' => perform cs' player w
  | c :: cs' =>
      let '(w', reset) := react c w in
      perform cs' (if reset then JStr (lit "all") else player) w'
  end.

Record processed := {
  final_player : json;
  world : W;
  trace : list call;
  failed : bool
}.

(** [process_danmu_list], lines 431-453, on the list that
    [get_danmu_list] returned. *)
Fixpoint process_danmu_list (l : danmu_list) (player : json) (w : W)
    : processed :=
  match l with
  | [] => {| final_player := player; world := w; trace := [];
             failed := false |}
  | danmu :: l' =>
      let h := on_danmu player (status w) (rows w) danmu in
      let '(player', w') := perform (calls h) (player_after h) w in
      if raised h then
        {| final_player := player'; world := w'; trace := calls h;
           failed := true |}
      else
        let r := process_danmu_list l' player' w' in
        {| final_player := final_player r; world := world r;
           trace := calls h ++ trace r; failed := failed r |}
  end.
End Loop.

Arguments final_player {W} _.
Arguments world {W} _.
Arguments trace {W} _.
Arguments failed {W} _.

End Game.

(** [BoardAxis.set], lines 17-31: the texts of the labels (their places
    on the screen are left to pygame). *)
Module BoardAxis.

Definition range (n : Z) : list Z := map Z.of_nat (seq 0 (Z.to_nat n)).

(** [chr(ord('A') + i)] and [str(i)]. *)
Definition x_label (i : Z) : str := [65 + i].
Definition y_label (i : Z) : str := py_str i.

Definition x_axis (n_cols : Z) : list str := map x_label (range n_cols).
Definition y_axis (n_rows : Z) : list str := map y_label (range n_rows).

End BoardAxis.

(** A command of the shape above whose name is [user]. *)
Definition sent_by (user : json) (c : command) : Prop :=
  well_formed c = true /\ fst (fst c) = user.

(** [jd] is a chat message: [cmd] is [DANMU_MSG], [info[2][1]] is [user]
    and [info[1]] is the string [text]. *)
Definition chat_message (jd user : json) (text : str) : Prop :=
  getitem jd (lit "cmd") = Some (JStr (lit "DANMU_MSG"))
  /\ exists info i2,
       getitem jd (lit "info") = Some info
       /\ getindex info 2 = Some i2 /\ getindex i2 1 = Some user
       /\ getindex info 1 = Some (JStr text).

(** The call on the board for zero, one or two markers. *)
Definition tile_call (n : nat) (i j : Z) : Game.call :=
  match n with
  | O => Game.OpenTile i j
  | 1%nat => Game.CheckTile i j
  | _ => Game.UncheckTile i j
  end.

(** An [==] that computes, for the examples: strings, integers, booleans
    and [None] as Python compares them, lists and dicts member by
    member. *)
Fixpoint ref_py_eq (a b : json) : bool :=
  match a with
  | JNull => match b with JNull => true | _ => false end
  | JBool x =>
      match b with
      | JBool y => Bool.eqb x y
      | JInt y => (if x then 1 else 0) =? y
      | _ => false
      end
  | JInt x =>
      match b with
      | JInt y => x =? y
      | JBool y => x =? (if y then 1 else 0)
      | _ => false
      end
  | JFloat x => match b with JFloat y => str_eqb x y | _ => false end
  | JStr x => eq_lit b x
  | JList l1 =>
      match b with
      | JList l2 =>
          (fix go (l1 l2 : list json) : bool :=
             match l1, l2 with
             | [], [] => true
             | x :: l1', y :: l2' => ref_py_eq x y && go l1' l2'
             | _, _ => false
             end) l1 l2
      | _ => false
      end
  | JDict d1 =>
      match b with
      | JDict d2 =>
          Nat.eqb (List.length d1) (List.length d2)
          && (fix go (d : list (str * json)) : bool :=
                match d with
                | [] => true
                | (k, v) :: d' =>
                    match assoc k d2 with
                    | Some v' => ref_py_eq v v' && go d'
                    | None => false
                    end
                end) d1
      | _ => false
      end
  end.

Lemma str_eqb_sym a : forall b, str_eqb a b = str_eqb b a.
Proof.
  induction a as [|x a IH]; intros [|y b]; simpl; try reflexivity.
  now rewrite Z.eqb_sym, IH.
Qed.

Lemma ref_py_eq_str_r j s : ref_py_eq j (JStr s) = eq_lit j s.
Proof. destruct j; simpl; try reflexivity. apply str_eqb_sym. Qed.

#[export] Instance ref_eq : PyEq := {|
  py_eq := ref_py_eq;
  py_eq_str_l := fun _ _ => eq_refl;
  py_eq_str_r := ref_py_eq_str_r
|}.

(** The outcome [o] of a call that started on the empty list, had it
    started on [q]. *)
Definition onto (q : danmu_list) (o : outcome) : outcome :=
  match o with
  | Returned m => Returned (q ++ m)
  | Raised e m => Raised e (q ++ m)
  end.

(** All characters are hex digits, and they come in pairs. *)
Definition all_hex (s : str) : bool :=
  forallb (fun c => match hex_value c with Some _ => true | None => false end)
    s.

Fixpoint hex_pairs (s : str) : bool :=
  match s with
  | [] => true
  | a :: b :: s' =>
      match hex_value a, hex_value b with
      | Some _, Some _ => hex_pairs s'
      | _, _ => false
      end
  | [_] => false
  end.

(** A character of a room identifier that [hex] writes with two digits;
    the ASCII digits are among them. *)
Definition room_char (c : Z) : Prop := 16 <= c <= 255.

(** ** Example data for the game

    A board of 16 rows that records the calls it gets, newest first,
    and never ends the game; a buffer that nests frames; the texts of
    an input box. *)
Module ExGame.

Definition world : Type := list Game.call.
Definition status (w : world) : json := JStr (lit "before_start").
Definition rows (w : world) : Z := 16.
Definition react (c : Game.call) (w : world) : world * bool := (c :: w, false).

Definition bob_unchecks : bytes :=
  Wire.business_packet (Wire.chat (lit "bob") (lit "!!c12")).
Definition bob_easy : bytes :=
  Wire.business_packet (Wire.chat (lit "bob") (lit "easy")).

(** amy writes U+FF01 [b12]; a user whose name is U+5C0F U+660E buys a
    guard; someone called [all] sends a gift. *)
Definition amy_flags : bytes :=
  Wire.business_packet (Wire.chat (lit "amy") (fw_bang :: lit "b12")).
Definition ming : str := [23567; 26126].
Definition ming_guard : bytes := Wire.business_packet (Wire.guard_buy ming).
Definition all_gift : command :=
  (JStr (lit "all"), "gift"%string, Txt []).

Definition nested : list packet_tree :=
  [Packed Ex.compressed_pair [Plain Ex.bob_opens; Plain Ex.amy_checks];
   Plain Ex.cy_gift].

Definition messages : list (list packet_tree) :=
  [[Plain Ex.bob_opens]; [Plain Ex.cy_gift; Plain Ex.amy_checks]].

(** A header whose length field is 0. *)
Definition zero_length : bytes :=
  Wire.be 4 0 ++ Wire.be 2 16 ++ Wire.be 2 0 ++ Wire.be 4 5 ++ Wire.be 4 1.

Definition normal_board : Game.settings :=
  {| Game.difficulty := Txt (lit "NORMAL"); Game.n_rows := 16;
     Game.n_cols := 16; Game.n_mines := 40 |}.

(** [int] on the texts of ASCII digits. *)
Definition int_of_text : str -> option Z := py_int (R := ref_runtime).

(** The thread states after bob's command was appended and the game
    thread has copied the list. *)
Definition copied : Threads.state :=
  Threads.St (Some Threads.Consumer) [Ex.bob_cmd] Threads.PIdle
    (Threads.CCopied [Ex.bob_cmd]) [Ex.bob_cmd] [].

End ExGame.

(** * Theorems *)

(** ** Slices and headers *)

Lemma slice_app a b (f rest : bytes) :
  (b <= List.length f)%nat -> slice a b (f ++ rest) = slice a b f.
Proof.
  intros Hb. unfold slice.
  rewrite skipn_app, firstn_app, length_skipn.
  replace (b - a - (List.length f - a))%nat with 0%nat by lia.
  now rewrite firstn_O, app_nil_r.
Qed.

Lemma header_app (f rest : bytes) :
  (12 <= List.length f)%nat -> header (f ++ rest) = header f.
Proof.
  intros Hf. unfold header.
  now rewrite !slice_app by lia.
Qed.

Lemma int_of_hex_none b : int_of_hex b = None <-> b = [].
Proof. destruct b; simpl; split; congruence. Qed.

Lemma slice_nil a b (data : bytes) :
  slice a b data = [] <-> (b <= a \/ List.length data <= a)%nat.
Proof.
  unfold slice. split.
  - intros H. apply (f_equal (@List.length byte)) in H.
    rewrite length_firstn, length_skipn in H. simpl in H. lia.
  - intros H. apply length_zero_iff_nil.
    rewrite length_firstn, length_skipn. lia.
Qed.

(** The three fields can be read exactly when the buffer has 9 bytes. *)
Lemma header_some_iff (data : bytes) :
  (exists h, header data = Some h) <-> (9 <= List.length data)%nat.
Proof.
  unfold header. split.
  - intros [h Hh].
    destruct (int_of_hex (slice 0 4 data)); [|discriminate].
    destruct (int_of_hex (slice 6 8 data)); [|discriminate].
    destruct (int_of_hex (slice 8 12 data)) eqn:E; [|discriminate].
    destruct (Nat.le_gt_cases 9 (List.length data)) as [|Hlt]; [assumption|].
    assert (slice 8 12 data = []) as Hs by (apply slice_nil; lia).
    rewrite Hs in E. discriminate.
  - intros Hlen.
    destruct (int_of_hex (slice 0 4 data)) eqn:E1.
    2:{ apply int_of_hex_none, slice_nil in E1. lia. }
    destruct (int_of_hex (slice 6 8 data)) eqn:E2.
    2:{ apply int_of_hex_none, slice_nil in E2. lia. }
    destruct (int_of_hex (slice 8 12 data)) eqn:E3.
    2:{ apply int_of_hex_none, slice_nil in E3. lia. }
    eexists. reflexivity.
Qed.

(** ** The frame decoder *)

Section DecoderFacts.
Context {R : PyRuntime}.

Lemma uncompressed_frame_inv f :
  uncompressed_frame f = true ->
  exists ver op,
    header f = Some (Z.of_nat (List.length f), ver, op)
    /\ (16 <= List.length f)%nat /\ ver <> 2.
Proof.
  unfold uncompressed_frame. intros H.
  destruct (header f) as [[[packet_len ver] op]|]; [|discriminate].
  apply andb_true_iff in H as [H Hver].
  apply andb_true_iff in H as [Hmin Hlen].
  apply Z.leb_le in Hmin. apply Z.eqb_eq in Hlen.
  apply negb_true_iff, Z.eqb_neq in Hver.
  exists ver, op. subst packet_len. repeat split; [lia | assumption].
Qed.

(** A frame of a version other than 2 appends its commands and returns,
    whatever the recursive call would do. *)
Lemma frame_leaf self_call packet_len ver op f q :
  header f = Some (packet_len, ver, op) -> ver <> 2 ->
  frame self_call ver op f q = Returned (q ++ leaf_commands f).
Proof.
  intros Hh Hver. unfold frame, leaf_commands. rewrite Hh.
  apply Z.eqb_neq in Hver. rewrite Hver.
  destruct (ver =? 1); [now rewrite app_nil_r|].
  destruct (op =? 5); [reflexivity | now rewrite app_nil_r].
Qed.

(** One call on a buffer that is one frame. *)
Lemma decode_lone depth data ver op q :
  lone_frame data ver op ->
  decode_danmu (S depth) data q = frame (decode_danmu depth) ver op data q.
Proof.
  intros (packet_len & Hh & Hlen). simpl. rewrite Hh.
  replace (Z.of_nat (List.length data) >? packet_len) with false; [reflexivity|].
  symmetry. rewrite Z.gtb_ltb. apply Z.ltb_ge. assumption.
Qed.

(** One call on a buffer that goes on after its first frame: the rest is
    decoded first, then the frame. *)
Lemma decode_split depth f rest packet_len ver op q :
  header f = Some (packet_len, ver, op) ->
  packet_len = Z.of_nat (List.length f) -> (12 <= List.length f)%nat ->
  rest <> [] ->
  decode_danmu (S depth) (f ++ rest) q
  = and_then (decode_danmu depth rest q) (frame (decode_danmu depth) ver op f).
Proof.
  intros Hh -> Hmin Hrest. simpl. rewrite header_app, Hh by assumption.
  replace (Z.of_nat (List.length (f ++ rest)) >? Z.of_nat (List.length f))
    with true.
  - rewrite Nat2Z.id, skipn_app, firstn_app, Nat.sub_diag.
    rewrite skipn_all, firstn_all. simpl. now rewrite app_nil_r.
  - symmetry. rewrite Z.gtb_ltb. apply Z.ltb_lt. rewrite length_app.
    destruct rest; [congruence | simpl; lia].
Qed.

Lemma uncompressed_lone f :
  uncompressed_frame f = true -> exists ver op, lone_frame f ver op /\ ver <> 2.
Proof.
  intros (ver & op & Hh & _ & Hver)%uncompressed_frame_inv.
  exists ver, op. split; [|assumption].
  exists (Z.of_nat (List.length f)). split; [assumption | lia].
Qed.

Lemma concat_frames_nonempty frames :
  frames <> [] -> Forall (fun f => uncompressed_frame f = true) frames ->
  concat frames <> [].
Proof.
  destruct frames as [|f fs]; [congruence|]. intros _ Hall.
  inversion Hall as [|? ? Hf _]; subst.
  apply uncompressed_frame_inv in Hf as (_ & _ & _ & Hmin & _).
  simpl. destruct f; simpl in *; [lia | congruence].
Qed.

(** The frames of a buffer are handled from the last to the first. *)
Lemma decode_concat frames :
  forall depth q,
    frames <> [] -> Forall (fun f => uncompressed_frame f = true) frames ->
    (List.length frames <= depth)%nat ->
    decode_danmu depth (concat frames) q
    = Returned (q ++ concat (map leaf_commands (rev frames))).
Proof.
  induction frames as [|f fs IH]; intros depth q Hne Hall Hdepth;
    [congruence|].
  inversion Hall as [|? ? Hf Hfs]; subst.
  destruct depth as [|depth]; [simpl in Hdepth; lia|].
  simpl in Hdepth.
  destruct fs as [|f' fs'].
  - change (concat [f]) with (f ++ []). rewrite app_nil_r.
    destruct (uncompressed_lone f Hf) as (ver & op & Hlone & Hver).
    rewrite (decode_lone _ _ _ _ _ Hlone).
    destruct Hlone as (packet_len & Hh & _).
    rewrite (frame_leaf _ _ _ _ _ _ Hh Hver).
    cbn [rev map concat app]. now rewrite app_nil_r.
  - pose proof (uncompressed_frame_inv f Hf) as (ver & op & Hh & Hmin & Hver).
    change (concat (f :: f' :: fs')) with (f ++ concat (f' :: fs')).
    rewrite (decode_split depth f _ _ ver op q Hh eq_refl) by
      first [lia | apply concat_frames_nonempty; [congruence | assumption]].
    rewrite IH by first [assumption | congruence | lia].
    cbn [and_then]. rewrite (frame_leaf _ _ _ _ _ _ Hh Hver).
    change (rev (f :: f' :: fs')) with (rev (f' :: fs') ++ [f]).
    rewrite map_app, concat_app. cbn [map concat].
    now rewrite app_nil_r, app_assoc.
Qed.

(** A call never takes a command out of the list, and an exception does
    not undo an append. *)
Lemma decode_danmu_extends depth :
  forall data q, exists more, queue_of (decode_danmu depth data q) = q ++ more.
Proof.
  induction depth as [|depth IH]; intros data q.
  - exists []. simpl. now rewrite app_nil_r.
  - assert (Hframe : forall ver op f q0,
               exists more,
                 queue_of (frame (decode_danmu depth) ver op f q0) = q0 ++ more).
    { intros ver op f q0. unfold frame.
      destruct (ver =? 2).
      - destruct (zlib_decompress (skipn 16 f)) as [inner|].
        + apply IH.
        + exists []. simpl. now rewrite app_nil_r.
      - destruct (ver =? 1); [exists []; simpl; now rewrite app_nil_r|].
        destruct (op =? 5); [eexists; reflexivity|].
        exists []. simpl. now rewrite app_nil_r. }
    simpl. destruct (header data) as [[[packet_len ver] op]|].
    2:{ exists []. simpl. now rewrite app_nil_r. }
    destruct (Z.of_nat (List.length data) >? packet_len); [|apply Hframe].
    destruct (IH (skipn (Z.to_nat packet_len) data) q) as [m1 H1].
    destruct (decode_danmu depth (skipn (Z.to_nat packet_len) data) q)
      as [q1|e q1]; simpl in *; subst q1.
    + destruct (Hframe ver op (firstn (Z.to_nat packet_len) data) (q ++ m1))
        as [m2 H2].
      exists (m1 ++ m2). now rewrite H2, app_assoc.
    + exists m1. reflexivity.
Qed.

(** A version-2 frame: its payload is decompressed and decoded as a buffer
    of its own; a payload that is no zlib stream raises. *)
Lemma decode_compressed depth data op q :
  lone_frame data 2 op ->
  decode_danmu (S depth) data q
  = match zlib_decompress (skipn 16 data) with
    | Some inner => decode_danmu depth inner q
    | None => Raised ZlibError q
    end.
Proof.
  intros Hlone. now rewrite (decode_lone _ _ _ _ _ Hlone).
Qed.

Lemma frame_returns self_call ver op f q :
  ver <> 2 -> exists more, frame self_call ver op f q = Returned (q ++ more).
Proof.
  intros Hver. unfold frame. apply Z.eqb_neq in Hver. rewrite Hver.
  destruct (ver =? 1); [exists []; now rewrite app_nil_r|].
  destruct (op =? 5); [eexists; reflexivity|].
  exists []. now rewrite app_nil_r.
Qed.

(** No check of the length field: with a version other than 2 the call
    returns as soon as the rest of the buffer, if there is one, did. *)
Lemma decode_returns_unchecked depth data q packet_len ver op :
  header data = Some (packet_len, ver, op) -> ver <> 2 ->
  (Z.of_nat (List.length data) <= packet_len
   \/ exists q1,
        decode_danmu depth (skipn (Z.to_nat packet_len) data) q = Returned q1) ->
  exists more, decode_danmu (S depth) data q = Returned (q ++ more).
Proof.
  intros Hh Hver Hrest. simpl. rewrite Hh.
  destruct (Z.of_nat (List.length data) >? packet_len) eqn:Hgt.
  - destruct Hrest as [Hle | [q1 Hq1]].
    + rewrite Z.gtb_ltb in Hgt. apply Z.ltb_lt in Hgt. lia.
    + destruct (decode_danmu_extends depth (skipn (Z.to_nat packet_len) data) q)
        as [m1 Hm1].
      rewrite Hq1 in *. simpl in Hm1. subst q1. cbn [and_then].
      destruct (frame_returns (decode_danmu depth) ver op
                  (firstn (Z.to_nat packet_len) data) (q ++ m1) Hver)
        as [m2 Hm2].
      exists (m1 ++ m2). now rewrite Hm2, app_assoc.
  - apply frame_returns. assumption.
Qed.

(** The rest of the buffer comes first: when it raises, the frame before
    it is not decoded. *)
Lemma decode_rest_raises depth data q packet_len ver op e q1 :
  header data = Some (packet_len, ver, op) ->
  packet_len < Z.of_nat (List.length data) ->
  decode_danmu depth (skipn (Z.to_nat packet_len) data) q = Raised e q1 ->
  decode_danmu (S depth) data q = Raised e q1.
Proof.
  intros Hh Hlt Hrest. simpl. rewrite Hh.
  replace (Z.of_nat (List.length data) >? packet_len) with true
    by (symmetry; rewrite Z.gtb_ltb; apply Z.ltb_lt; assumption).
  now rewrite Hrest.
Qed.

(** The receive loop has no handler: a message that raises is the last
    one it decodes. *)
Lemma recv_danmu_stops depth msg rest q e q1 :
  decode_danmu depth msg q = Raised e q1 ->
  recv_danmu depth (msg :: rest) q = Raised e q1.
Proof. intros H. simpl. now rewrite H. Qed.

Lemma recv_danmu_continues depth msg rest q q1 :
  decode_danmu depth msg q = Returned q1 ->
  recv_danmu depth (msg :: rest) q = recv_danmu depth rest q1.
Proof. intros H. simpl. now rewrite H. Qed.

(** A payload that [zlib] rejects ends the loop, whatever follows. *)
Lemma bad_zlib_raises depth data op rest q :
  lone_frame data 2 op -> zlib_decompress (skipn 16 data) = None ->
  decode_danmu (S depth) data q = Raised ZlibError q
  /\ recv_danmu (S depth) (data :: rest) q = Raised ZlibError q.
Proof.
  intros Hlone Hz.
  assert (H : decode_danmu (S depth) data q = Raised ZlibError q)
    by now rewrite (decode_compressed _ _ _ _ Hlone), Hz.
  split; [assumption | now apply recv_danmu_stops].
Qed.

(** X7: A buffer of 8 bytes or fewer has no opcode to read: [int('', 16)]
    raises, outside the [try]. *)
Lemma decode_truncated depth data q :
  (List.length data <= 8)%nat ->
  decode_danmu (S depth) data q = Raised ValueError q.
Proof.
  intros Hlen. simpl. destruct (header data) as [h|] eqn:Hh; [|reflexivity].
  assert (9 <= List.length data)%nat
    by (apply header_some_iff; now exists h).
  lia.
Qed.

(** X8: A length field of zero: the rest of the buffer is the buffer, and the
    recursion goes on until the interpreter ends it. *)
Lemma zero_length_recurses depth :
  forall data ver op q,
    header data = Some (0, ver, op) ->
    decode_danmu depth data q = Raised RecursionError q.
Proof.
  induction depth as [|depth IH]; intros data ver op q Hh; [reflexivity|].
  assert (9 <= List.length data)%nat
    by (apply header_some_iff; eexists; eassumption).
  simpl. rewrite Hh.
  replace (Z.of_nat (List.length data) >? 0) with true
    by (symmetry; rewrite Z.gtb_ltb; apply Z.ltb_lt; lia).
  cbn [Z.to_nat skipn]. now rewrite (IH data ver op q Hh).
Qed.

(** C1 (amended): a buffer made of N >= 1 structurally valid uncompressed
    frames, decoded with at least N nested calls allowed, returns; each of
    the N frames is handled once, and the commands are appended in the
    reverse of the buffer order: what the last frame yields comes first,
    what the first frame yields comes last. *)
Theorem decode_concat_reverse_order frames depth q :
  frames <> [] -> Forall (fun f => uncompressed_frame f = true) frames ->
  (List.length frames <= depth)%nat ->
  decode_danmu depth (concat frames) q
  = Returned (q ++ concat (map leaf_commands (rev frames)))
  /\ List.length (map leaf_commands (rev frames)) = List.length frames.
Proof.
  intros Hne Hall Hdepth. split.
  - now apply decode_concat.
  - now rewrite length_map, length_rev.
Qed.

(** What holds of every buffer: [decode_danmu] never shortens the
    command list, whether it returns or raises.  The length field is not
    checked: when the three header fields can be read and the version is
    not 2, a call returns as soon as decoding the rest of the buffer
    ([data[packet_len:]], decoded first) returned, or there is no rest,
    also for a length field below 16.  And when decoding the rest raises,
    the call raises the same exception before it decodes the frame in
    front of it. *)
Lemma decode_keeps_queue depth data q :
  (exists more, queue_of (decode_danmu depth data q) = q ++ more)
  /\ (forall packet_len ver op,
        header data = Some (packet_len, ver, op) -> ver <> 2 ->
        (Z.of_nat (List.length data) <= packet_len
         \/ exists q1,
              decode_danmu depth (skipn (Z.to_nat packet_len) data) q
              = Returned q1) ->
        exists more, decode_danmu (S depth) data q = Returned (q ++ more))
  /\ (forall packet_len ver op e q1,
        header data = Some (packet_len, ver, op) ->
        packet_len < Z.of_nat (List.length data) ->
        decode_danmu depth (skipn (Z.to_nat packet_len) data) q = Raised e q1 ->
        decode_danmu (S depth) data q = Raised e q1).
Proof.
  split; [apply decode_danmu_extends|]. split.
  - intros packet_len ver op. apply decode_returns_unchecked.
  - intros packet_len ver op e q1. apply decode_rest_raises.
Qed.

(** C3: a version-2 frame whose payload decompresses to M >= 1 valid
    frames is decoded into what these M frames yield, each handled once;
    the wrapping frame adds nothing of its own. *)
Theorem decode_compressed_frames depth data op frames q :
  lone_frame data 2 op ->
  zlib_decompress (skipn 16 data) = Some (concat frames) ->
  frames <> [] -> Forall (fun f => uncompressed_frame f = true) frames ->
  (List.length frames <= depth)%nat ->
  decode_danmu (S depth) data q
  = Returned (q ++ concat (map leaf_commands (rev frames)))
  /\ decode_danmu (S depth) data q = decode_danmu depth (concat frames) q.
Proof.
  intros Hlone Hz Hne Hall Hdepth.
  rewrite (decode_compressed _ _ _ _ Hlone), Hz.
  split; [now apply decode_concat | reflexivity].
Qed.

End DecoderFacts.

(** C1, the claim as stated fails: bob's frame stands first in the buffer
    and his command comes last. *)
Lemma later_frame_first :
  uncompressed_frame Ex.bob_opens = true
  /\ uncompressed_frame Ex.amy_checks = true
  /\ decode_danmu 2 Ex.bob_opens [] = Returned [Ex.bob_cmd]
  /\ decode_danmu 2 Ex.amy_checks [] = Returned [Ex.amy_cmd]
  /\ decode_danmu 2 (Ex.bob_opens ++ Ex.amy_checks) []
     = Returned [Ex.amy_cmd; Ex.bob_cmd].
Proof. repeat split; vm_compute; reflexivity. Qed.

Lemma decode_concat_reverse_order_witness :
  decode_danmu 2 (concat [Ex.bob_opens; Ex.amy_checks]) []
  = Returned ([] ++ concat (map leaf_commands (rev [Ex.bob_opens; Ex.amy_checks])))
  /\ List.length (map leaf_commands (rev [Ex.bob_opens; Ex.amy_checks]))
     = List.length [Ex.bob_opens; Ex.amy_checks].
Proof.
  apply (decode_concat_reverse_order [Ex.bob_opens; Ex.amy_checks] 2%nat []).
  - discriminate.
  - apply Forall_cons; [vm_compute; reflexivity|].
    apply Forall_cons; [vm_compute; reflexivity | apply Forall_nil].
  - simpl. lia.
Defined.

(** C2, the failing input: three stray bytes after bob's frame raise
    [ValueError] out of [decode_danmu], and bob's frame, which stands
    before them, is never decoded; the empty buffer raises; a 16-byte
    frame whose length field is 8 raises, on the 8 bytes the field
    leaves as the rest.  Nothing catches the exception: [recv_danmu]
    stops at the truncated message, and amy's message, which the socket
    delivers next, is never decoded. *)
Theorem truncated_tail_loses_frame :
  decode_danmu 3 Ex.bob_opens [] = Returned [Ex.bob_cmd]
  /\ decode_danmu 3 (Ex.bob_opens ++ firstn 3 Ex.amy_checks) []
     = Raised ValueError []
  /\ decode_danmu 3 [] [Ex.bob_cmd] = Raised ValueError [Ex.bob_cmd]
  /\ decode_danmu 3 Ex.short_length [] = Raised ValueError []
  /\ recv_danmu 3 [Ex.bob_opens ++ firstn 3 Ex.amy_checks; Ex.amy_checks] []
     = Raised ValueError []
  /\ recv_danmu 3 [Ex.amy_checks] [] = Returned [Ex.amy_cmd].
Proof. repeat split; vm_compute; reflexivity. Qed.

Lemma decode_keeps_queue_witness :
  exists more,
    decode_danmu 4 (Ex.short_length ++ Ex.bob_opens) [Ex.amy_cmd]
    = Returned ([Ex.amy_cmd] ++ more).
Proof.
  apply (proj1 (proj2 (decode_keeps_queue 3%nat
                         (Ex.short_length ++ Ex.bob_opens) [Ex.amy_cmd]))
           8 0 5).
  - vm_compute. reflexivity.
  - discriminate.
  - right. eexists. vm_compute. reflexivity.
Defined.

Lemma decode_compressed_frames_witness :
  decode_danmu 3 Ex.compressed_pair []
  = Returned ([] ++ concat (map leaf_commands
                              (rev [Ex.bob_opens; Ex.amy_checks])))
  /\ decode_danmu 3 Ex.compressed_pair []
     = decode_danmu 2 (concat [Ex.bob_opens; Ex.amy_checks]) [].
Proof.
  apply (decode_compressed_frames 2%nat Ex.compressed_pair 5
           [Ex.bob_opens; Ex.amy_checks] []).
  - eexists. split; [vm_compute; reflexivity | vm_compute; discriminate].
  - vm_compute. reflexivity.
  - discriminate.
  - apply Forall_cons; [vm_compute; reflexivity|].
    apply Forall_cons; [vm_compute; reflexivity | apply Forall_nil].
  - simpl. lia.
Defined.

(** C4, the failing input: a version-2 frame whose payload is no zlib
    stream raises out of [decode_danmu], and [recv_danmu] stops there:
    bob's message, which the socket delivers next, is never decoded.  In
    one buffer, a frame behind the bad one is already decoded and stays,
    a frame in front of it is lost. *)
Theorem zlib_failure_ends_receive_loop :
  decode_danmu 3 Ex.bad_zlib [] = Raised ZlibError []
  /\ recv_danmu 3 [Ex.bad_zlib; Ex.bob_opens] [] = Raised ZlibError []
  /\ recv_danmu 3 [Ex.bob_opens] [] = Returned [Ex.bob_cmd]
  /\ decode_danmu 3 (Ex.bad_zlib ++ Ex.bob_opens) []
     = Raised ZlibError [Ex.bob_cmd]
  /\ decode_danmu 3 (Ex.bob_opens ++ Ex.bad_zlib) [] = Raised ZlibError [].
Proof. repeat split; vm_compute; reflexivity. Qed.

(** ** The classification of chat texts *)

Lemma range_true lo hi x : lo <= x <= hi -> (lo <=? x) && (x <=? hi) = true.
Proof. intros. apply andb_true_iff. split; apply Z.leb_le; lia. Qed.

Lemma range_false lo hi x :
  x < lo \/ hi < x -> (lo <=? x) && (x <=? hi) = false.
Proof.
  intros [H|H]; apply andb_false_iff; [left|right]; apply Z.leb_gt; lia.
Qed.

Lemma is_letter_inv c : is_letter c = true -> 65 <= c <= 90 \/ 97 <= c <= 122.
Proof.
  unfold is_letter. intros H. apply orb_true_iff in H as [H|H];
    apply andb_true_iff in H as [H1 H2]; apply Z.leb_le in H1, H2; lia.
Qed.

Section Classifier.
Context {R : PyRuntime}.

(** A character [\d] matches is no marker and no letter of the patterns. *)
Lemma digit_char d v :
  decimal d = Some v ->
  d <> 33 /\ d <> 65281 /\ (d < 65 \/ 90 < d) /\ (d < 97 \/ 122 < d).
Proof.
  intros Hd.
  assert (Hb : d <> 65281)
    by (intros ->; pose proof decimal_fw_bang as Hf; unfold fw_bang in Hf;
        congruence).
  assert (Ha : 0 <= d < 128 -> 48 <= d <= 57).
  { intros Hr. rewrite (decimal_ascii d Hr) in Hd.
    destruct (48 <=? d) eqn:E1; destruct (d <=? 57) eqn:E2; try discriminate.
    apply Z.leb_le in E1, E2. lia. }
  lia.
Qed.

Lemma letter_no_digit c : is_letter c = true -> decimal c = None.
Proof.
  intros H%is_letter_inv. rewrite decimal_ascii by lia.
  rewrite range_false by lia. reflexivity.
Qed.

Lemma ascii_digit d : 48 <= d <= 57 -> decimal d = Some (d - 48).
Proof.
  intros H. rewrite decimal_ascii by lia. now rewrite range_true by lia.
Qed.

(** Decide the next test of the matcher from the hypotheses on the
    characters. *)
Ltac ztest :=
  match goal with
  | H : decimal ?x = _ |- context [decimal ?x] => rewrite H
  | |- context [decimal ?x] => rewrite (decimal_ascii x) by lia
  | |- context [andb (Z.leb ?lo ?x) (Z.leb ?x ?hi)] =>
      first [ rewrite (range_true lo hi x) by lia
            | rewrite (range_false lo hi x) by lia ]
  | |- context [Z.eqb ?a ?b] =>
      first [ rewrite (proj2 (Z.eqb_eq a b)) by lia
            | rewrite (proj2 (Z.eqb_neq a b)) by lia ]
  | |- context [Z.leb ?a ?b] =>
      first [ rewrite (proj2 (Z.leb_le a b)) by lia
            | rewrite (proj2 (Z.leb_gt a b)) by lia ]
  end.

Ltac run_match :=
  pose proof decimal_fw_bang;
  unfold classify, re_match, letter_index, bangs; cbn;
  unfold fw_bang in *; cbn;
  repeat (ztest; cbn);
  try reflexivity; repeat (f_equal; try lia).

Ltac marks_cases fw n Hn :=
  destruct fw; destruct n as [|[|[|n]]]; try (exfalso; lia); clear Hn.

Ltac letter_cases L HL :=
  pose proof (letter_no_digit L HL);
  apply is_letter_inv in HL; destruct HL as [HL|HL].

Ltac digit_facts :=
  repeat match goal with
  | H : decimal ?d = Some _ |- _ =>
      lazymatch goal with
      | _ : d <> 33 |- _ => fail
      | _ => pose proof (digit_char _ _ H) as (? & ? & ? & ?)
      end
  end.

Lemma classify_letter_two user fw n L d1 d2 v1 v2 rest :
  (n <= 2)%nat -> is_letter L = true ->
  decimal d1 = Some v1 -> decimal d2 = Some v2 ->
  classify user (bangs fw n ++ L :: d1 :: d2 :: rest)
  = Some [(user, op_of_marks n, Pos (letter_index L) (v1 * 10 + v2))].
Proof.
  intros Hn HL H1 H2. digit_facts.
  marks_cases fw n Hn; letter_cases L HL; run_match.
Qed.

Lemma classify_letter_one user fw n L d1 v1 rest :
  (n <= 2)%nat -> is_letter L = true ->
  decimal d1 = Some v1 -> no_digit_next rest ->
  classify user (bangs fw n ++ L :: d1 :: rest)
  = Some [(user, op_of_marks n, Pos (letter_index L) v1)].
Proof.
  intros Hn HL H1 Hrest. digit_facts.
  destruct rest as [|x rest]; simpl in Hrest;
    marks_cases fw n Hn; letter_cases L HL; run_match.
Qed.

Lemma classify_digits_two user fw n L d1 d2 v1 v2 rest :
  (n <= 2)%nat -> is_letter L = true ->
  decimal d1 = Some v1 -> decimal d2 = Some v2 ->
  classify user (bangs fw n ++ d1 :: d2 :: L :: rest)
  = Some [(user, op_of_marks n, Pos (letter_index L) (v1 * 10 + v2))].
Proof.
  intros Hn HL H1 H2. digit_facts.
  marks_cases fw n Hn; letter_cases L HL; run_match.
Qed.

Lemma classify_digit_one user fw n L d1 v1 rest :
  (n <= 2)%nat -> is_letter L = true ->
  decimal d1 = Some v1 ->
  classify user (bangs fw n ++ d1 :: L :: rest)
  = Some [(user, op_of_marks n, Pos (letter_index L) v1)].
Proof.
  intros Hn HL H1. digit_facts.
  marks_cases fw n Hn; letter_cases L HL; run_match.
Qed.

Lemma number_text_digits r :
  0 <= r <= 99 ->
  if r <? 10 then decimal (48 + r) = Some r
  else decimal (48 + r / 10) = Some (r / 10)
       /\ decimal (48 + r mod 10) = Some (r mod 10)
       /\ r / 10 * 10 + r mod 10 = r.
Proof.
  intros Hr. destruct (r <? 10) eqn:E.
  - apply Z.ltb_lt in E. rewrite ascii_digit by lia. f_equal. lia.
  - apply Z.ltb_ge in E.
    pose proof (Z.div_mod r 10 ltac:(lia)).
    pose proof (Z.mod_pos_bound r 10 ltac:(lia)).
    assert (1 <= r / 10 <= 9) by lia.
    rewrite !ascii_digit by lia. repeat split; try (f_equal; lia); lia.
Qed.

(** A text that starts with one of the four spellings of the pattern. *)
Lemma classify_difficulty user w rest :
  In w [lit "easy"; lit "normal"; lit "EASY"; lit "NORMAL"] ->
  classify user (w ++ rest) = Some [(user, "difficulty"%string, Txt (upper w))].
Proof.
  intros Hw. simpl in Hw.
  destruct Hw as [<-|[<-|[<-|[<-|[]]]]]; run_match.
Qed.

(** There is no flag on the pattern: a capital followed by small letters
    opens none of its four words. *)
Lemma classify_capitalised user rest :
  classify user (lit "Ea" ++ rest) = Some []
  /\ classify user (lit "No" ++ rest) = Some [].
Proof. split; run_match. Qed.

(** The two alternatives of the first group do not mix: an ASCII marker
    next to a full-width one opens no pattern. *)
Lemma mixed_marks_unclassified user rest :
  classify user (33 :: fw_bang :: rest) = Some []
  /\ classify user (fw_bang :: 33 :: rest) = Some [].
Proof. split; run_match. Qed.


(** C6 (amended): the pattern lists four spellings.  A text equal to
    [easy], [EASY], [normal] or [NORMAL] gives the [difficulty] command
    with the word in upper case; a capitalised [Easy] or [Normal] gives no
    command. *)
Theorem difficulty_four_spellings user :
  classify user (lit "easy")
  = Some [(user, "difficulty"%string, Txt (lit "EASY"))]
  /\ classify user (lit "EASY")
     = Some [(user, "difficulty"%string, Txt (lit "EASY"))]
  /\ classify user (lit "normal")
     = Some [(user, "difficulty"%string, Txt (lit "NORMAL"))]
  /\ classify user (lit "NORMAL")
     = Some [(user, "difficulty"%string, Txt (lit "NORMAL"))]
  /\ classify user (lit "Easy") = Some []
  /\ classify user (lit "Normal") = Some [].
Proof.
  pose proof (fun w => classify_difficulty user w []) as Hw.
  setoid_rewrite app_nil_r in Hw.
  repeat split.
  1-4: rewrite Hw by (simpl; tauto); reflexivity.
  - apply (proj1 (classify_capitalised user (lit "sy"))).
  - apply (proj2 (classify_capitalised user (lit "rmal"))).
Qed.

(** C10 (amended): the patterns are matched at the start of the text
    and what follows the match is ignored, with one exception.  A cell
    reference followed by any [rest] gives the command of the reference
    when the number has two digits, in either order, and when a
    one-digit number stands before the letter.  A one-digit number
    behind the letter is the number only when [rest] does not go on with
    a digit: the pattern takes two digits when it can, so a digit at the
    head of [rest] becomes the second digit of the number.  The number
    is the value of the digits ([05] is 5).  One of the four difficulty
    spellings followed by any [rest] gives the difficulty command. *)
Theorem trailing_text_ignored user full_width n L d1 v1 rest :
  (n <= 2)%nat -> is_letter L = true -> decimal d1 = Some v1 ->
  (no_digit_next rest ->
   classify user ((bangs full_width n ++ [L; d1]) ++ rest)
   = Some [(user, op_of_marks n, Pos (letter_index L) v1)])
  /\ classify user ((bangs full_width n ++ [d1; L]) ++ rest)
     = Some [(user, op_of_marks n, Pos (letter_index L) v1)]
  /\ (forall d2 v2,
        decimal d2 = Some v2 ->
        classify user ((bangs full_width n ++ [L; d1; d2]) ++ rest)
        = Some [(user, op_of_marks n, Pos (letter_index L) (v1 * 10 + v2))]
        /\ classify user ((bangs full_width n ++ [d1; d2; L]) ++ rest)
           = Some [(user, op_of_marks n,
                    Pos (letter_index L) (v1 * 10 + v2))]
        /\ classify user ((bangs full_width n ++ [L; d1]) ++ d2 :: rest)
           = Some [(user, op_of_marks n,
                    Pos (letter_index L) (v1 * 10 + v2))])
  /\ (forall w,
        In w [lit "easy"; lit "normal"; lit "EASY"; lit "NORMAL"] ->
        classify user (w ++ rest)
        = Some [(user, "difficulty"%string, Txt (upper w))]).
Proof.
  intros Hn HL H1. rewrite <- !app_assoc. cbn [app].
  split; [|split; [|split]].
  - intros Hrest. now apply classify_letter_one.
  - now apply classify_digit_one.
  - intros d2 v2 H2. rewrite <- !app_assoc. cbn [app].
    split; [|split].
    + now apply classify_letter_two.
    + now apply classify_digits_two.
    + now apply classify_letter_two.
  - intros w. apply classify_difficulty.
Qed.

End Classifier.


(** C6, the claim as stated fails: [Easy] gives no command, as a text and
    as a chat message on the wire. *)
Lemma capitalised_easy_unclassified :
  classify (JStr (lit "bob")) (lit "Easy") = Some []
  /\ decode_danmu 2
       (Wire.business_packet (Wire.chat (lit "bob") (lit "Easy"))) []
     = Returned []
  /\ decode_danmu 2
       (Wire.business_packet (Wire.chat (lit "bob") (lit "easy"))) []
     = Returned [(JStr (lit "bob"), "difficulty"%string, Txt (lit "EASY"))].
Proof. repeat split; vm_compute; reflexivity. Qed.

(** C10, the claim as stated fails: [A5] is column 0, row 5, and with
    the trailing character [7] it is row 57; what follows [A57] is
    ignored. *)
Lemma digit_after_number_not_ignored :
  classify (JStr (lit "bob")) (lit "A5")
  = Some [(JStr (lit "bob"), "open"%string, Pos 0 5)]
  /\ classify (JStr (lit "bob")) (lit "A5" ++ lit "7")
     = Some [(JStr (lit "bob"), "open"%string, Pos 0 57)]
  /\ classify (JStr (lit "bob")) (lit "A5" ++ lit "7 hello")
     = Some [(JStr (lit "bob"), "open"%string, Pos 0 57)]
  /\ decode_danmu 2
       (Wire.business_packet (Wire.chat (lit "bob") (lit "A57"))) []
     = Returned [(JStr (lit "bob"), "open"%string, Pos 0 57)].
Proof. repeat split; vm_compute; reflexivity. Qed.

Lemma trailing_text_ignored_witness :
  classify (JStr (lit "bob")) (lit "A5 hello")
  = Some [(JStr (lit "bob"), "open"%string, Pos 0 5)]
  /\ classify (JStr (lit "bob")) (lit "5A7")
     = Some [(JStr (lit "bob"), "open"%string, Pos 0 5)]
  /\ (classify (JStr (lit "bob")) (lit "A05 hello")
      = Some [(JStr (lit "bob"), "open"%string, Pos 0 5)]
      /\ classify (JStr (lit "bob")) (lit "05A hello")
         = Some [(JStr (lit "bob"), "open"%string, Pos 0 5)]
      /\ classify (JStr (lit "bob")) (lit "A05 hello")
         = Some [(JStr (lit "bob"), "open"%string, Pos 0 5)])
  /\ classify (JStr (lit "bob")) (fw_bang :: lit "b7" ++ lit "3!")
     = Some [(JStr (lit "bob"), "check"%string, Pos 1 73)]
  /\ classify (JStr (lit "bob")) (lit "easygoing")
     = Some [(JStr (lit "bob"), "difficulty"%string, Txt (lit "EASY"))].
Proof.
  split; [|split; [|split; [|split]]].
  - apply (proj1 (trailing_text_ignored (JStr (lit "bob")) false 0%nat 65
                    53 5 (lit " hello") ltac:(lia) eq_refl eq_refl)).
    vm_compute. reflexivity.
  - apply (proj1 (proj2 (trailing_text_ignored (JStr (lit "bob")) false
                           0%nat 65 53 5 (lit "7")
                           ltac:(lia) eq_refl eq_refl))).
  - apply (proj1 (proj2 (proj2 (trailing_text_ignored (JStr (lit "bob"))
                                  false 0%nat 65 48 0 (lit " hello")
                                  ltac:(lia) eq_refl eq_refl)))
             53 5 eq_refl).
  - apply (proj2 (proj2 (proj1 (proj2 (proj2
             (trailing_text_ignored (JStr (lit "bob")) true 1%nat 98 55 7
                (lit "!") ltac:(lia) eq_refl eq_refl)))
             51 3 eq_refl))).
  - apply (proj2 (proj2 (proj2 (trailing_text_ignored (JStr (lit "bob"))
                                  false 0%nat 65 53 5 (lit "going")
                                  ltac:(lia) eq_refl eq_refl)))
             (lit "easy")).
    simpl. tauto.
Defined.

(** ** Business messages *)

Lemma str_eqb_eq a : forall b, str_eqb a b = true <-> a = b.
Proof.
  induction a as [|x a IH]; intros [|y b]; simpl; split; intros H;
    try congruence.
  - apply andb_true_iff in H as [Hx Hab]. apply Z.eqb_eq in Hx.
    apply IH in Hab. congruence.
  - injection H as -> ->. rewrite Z.eqb_refl. now apply IH.
Qed.

Lemma eq_lit_true j s : eq_lit j s = true -> j = JStr s.
Proof.
  destruct j; simpl; try discriminate. intros H%str_eqb_eq. now subst.
Qed.

Section BusinessFacts.
Context {R : PyRuntime}.

Ltac eval_cmd :=
  cbn [eq_lit];
  repeat match goal with
  | |- context [str_eqb (lit ?a) (lit ?b)] =>
      let v := eval vm_compute in (str_eqb (lit a) (lit b)) in
      change (str_eqb (lit a) (lit b)) with v
  end;
  cbv iota.

Ltac split_options :=
  repeat match goal with
  | |- context [match ?x with Some _ => _ | None => _ end] =>
      destruct x; try reflexivity
  end.

(** A missing key raises inside the [try] before anything is appended. *)
Lemma business_lacks_keys jd : lacks_keys jd -> business jd = None.
Proof.
  intros H. unfold business.
  destruct H as [Hc | cmd Hc Hk Hd | cmd d k Hc Hk Hd Hin Hf
                | cmd Hc Hk Hd | cmd d Hc Hk Hd Hu
                | cmd Hc Hk Hi | cmd info Hc Hk Hi Hu | cmd info Hc Hk Hi Ht];
    rewrite Hc; try reflexivity;
    apply eq_lit_true in Hk; subst cmd; eval_cmd.
  - now rewrite Hd.
  - rewrite Hd. simpl in Hin.
    destruct Hin as [<-|[<-|[<-|[]]]]; rewrite Hf; split_options;
      reflexivity.
  - now rewrite Hd.
  - now rewrite Hd, Hu.
  - now rewrite Hi.
  - rewrite Hi. destruct (getindex info 2) as [i2|]; [|reflexivity].
    now rewrite Hu.
  - rewrite Hi, Ht. split_options; reflexivity.
Qed.

(** A [cmd] that is none of the three falls through the [if] chain. *)
Lemma business_unknown_cmd jd : unknown_cmd jd -> business jd = Some [].
Proof.
  intros (cmd & Hc & H1 & H2 & H3). unfold business.
  now rewrite Hc, H1, H2, H3.
Qed.

(** A business frame: what [json.loads] and the body of the [try] give is
    appended, an exception in either is swallowed. *)
Lemma decode_business depth data ver q :
  lone_frame data ver 5 -> ver <> 1 -> ver <> 2 ->
  decode_danmu (S depth) data q = Returned (q ++ on_message data).
Proof.
  intros Hlone H1 H2. rewrite (decode_lone _ _ _ _ _ Hlone). unfold frame.
  apply Z.eqb_neq in H1, H2. now rewrite H1, H2.
Qed.

(** C7: an opcode-5 frame (of a version other than 2) whose payload is
    no JSON, or whose JSON lacks a key its handler reads, or has a [cmd]
    the handler does not know, appends no command and raises nothing: the
    call returns with the list as it was, and the receive loop goes on
    with the next message; inside a longer buffer the frame adds nothing
    either. *)
Theorem malformed_message_dropped depth data ver q rest :
  lone_frame data ver 5 -> ver <> 2 ->
  (json_loads (utf8_decode_ignore (skipn 16 data)) = None
   \/ exists jd,
        json_loads (utf8_decode_ignore (skipn 16 data)) = Some jd
        /\ (lacks_keys jd \/ unknown_cmd jd)) ->
  decode_danmu (S depth) data q = Returned q
  /\ recv_danmu (S depth) (data :: rest) q = recv_danmu (S depth) rest q
  /\ leaf_commands data = [].
Proof.
  intros Hlone Hver Hbad.
  assert (Hmsg : on_message data = []).
  { unfold on_message.
    destruct Hbad as [-> | (jd & -> & [Hk | Hu])].
    - reflexivity.
    - now rewrite (business_lacks_keys _ Hk).
    - now rewrite (business_unknown_cmd _ Hu). }
  assert (Hleaf : leaf_commands data = []).
  { destruct Hlone as (packet_len & Hh & _). unfold leaf_commands.
    rewrite Hh. now destruct (ver =? 1). }
  assert (H : decode_danmu (S depth) data q = Returned q).
  { rewrite (decode_lone _ _ _ _ _ Hlone).
    destruct Hlone as (packet_len & Hh & _).
    now rewrite (frame_leaf _ _ _ _ _ _ Hh Hver), Hleaf, app_nil_r. }
  split; [assumption | split; [now apply recv_danmu_continues | assumption]].
Qed.

(** What a gift message appends, for every runtime: a [SEND_GIFT]
    message (with [uname], [num] and [giftName] in its [data]) appends
    the gift command of [data.uname] when [print(gift_info)] returns and
    [giftName] is the tracked name, and nothing otherwise; a [GUARD_BUY]
    message appends the gift command of [data.username] when
    [print(gift_info)] returns, and nothing when it raises. *)
Lemma gift_commands depth data ver q jd d :
  lone_frame data ver 5 -> ver <> 1 -> ver <> 2 ->
  json_loads (utf8_decode_ignore (skipn 16 data)) = Some jd ->
  getitem jd (lit "data") = Some d ->
  (getitem jd (lit "cmd") = Some (JStr (lit "SEND_GIFT")) ->
   forall uname num gift_name,
     getitem d (lit "uname") = Some uname ->
     getitem d (lit "num") = Some num ->
     getitem d (lit "giftName") = Some gift_name ->
     decode_danmu (S depth) data q
     = Returned (q ++ if print_ok [uname; num; gift_name]
                         && eq_lit gift_name tracked_gift
                      then [(uname, "gift"%string, Txt [])] else []))
  /\ (getitem jd (lit "cmd") = Some (JStr (lit "GUARD_BUY")) ->
      forall username,
        getitem d (lit "username") = Some username ->
        decode_danmu (S depth) data q
        = Returned (q ++ if print_ok [username; JStr (lit "1");
                                      JStr (lit "captain")]
                         then [(username, "gift"%string, Txt [])] else [])).
Proof.
  intros Hlone H1 H2 Hjd Hd.
  rewrite (decode_business _ _ _ _ Hlone H1 H2).
  unfold on_message, business, py_print. rewrite Hjd. split.
  - intros Hc uname num gift_name Hu Hn Hg. rewrite Hc. eval_cmd.
    rewrite Hd, Hu, Hn, Hg.
    destruct (print_ok [uname; num; gift_name]); [|reflexivity].
    now destruct (eq_lit gift_name tracked_gift).
  - intros Hc username Hu. rewrite Hc. eval_cmd. rewrite Hd, Hu.
    now destruct (print_ok [username; JStr (lit "1"); JStr (lit "captain")]).
Qed.

End BusinessFacts.

Lemma malformed_message_dropped_witness :
  decode_danmu 3 Ex.bad_json [Ex.bob_cmd] = Returned [Ex.bob_cmd]
  /\ recv_danmu 3 [Ex.bad_json; Ex.amy_checks] [Ex.bob_cmd]
     = recv_danmu 3 [Ex.amy_checks] [Ex.bob_cmd]
  /\ leaf_commands Ex.bad_json = [].
Proof.
  apply (malformed_message_dropped 2%nat Ex.bad_json 0 [Ex.bob_cmd]
           [Ex.amy_checks]).
  - eexists. split; [vm_compute; reflexivity | vm_compute; discriminate].
  - discriminate.
  - left. vm_compute. reflexivity.
Defined.

(** The business frames of the examples, decoded one by one and as one
    buffer. *)
Example business_examples :
  decode_danmu 2 Ex.cy_gift [] = Returned [Ex.cy_cmd]
  /\ decode_danmu 2 Ex.cy_other_gift [] = Returned []
  /\ decode_danmu 2 Ex.dee_guard [] = Returned [Ex.dee_cmd]
  /\ decode_danmu 2 Ex.no_cmd [] = Returned []
  /\ decode_danmu 2 Ex.other_cmd [] = Returned []
  /\ decode_danmu 5
       (Ex.cy_gift ++ Ex.bad_json ++ Ex.dee_guard ++ Ex.other_cmd) []
     = Returned [Ex.dee_cmd; Ex.cy_cmd].
Proof. repeat split; vm_compute; reflexivity. Qed.

(** C8, the failing input: cy's gift of the tracked name and a guard
    bought by a user with a Chinese name, decoded where [sys.stdout]
    encodes them and where it is ASCII.  There [print(gift_info)] raises
    inside the [try], before the append: the handler swallows the
    [UnicodeEncodeError] and no gift command is appended.  dee's guard,
    whose tuple is ASCII, is appended in both. *)
Theorem gift_lost_when_print_raises :
  decode_danmu (R := ref_runtime) 3 Ex.cy_gift [] = Returned [Ex.cy_cmd]
  /\ decode_danmu (R := ascii_stdout) 3 Ex.cy_gift [] = Returned []
  /\ decode_danmu (R := ref_runtime) 3 ExGame.ming_guard []
     = Returned [(JStr ExGame.ming, "gift"%string, Txt [])]
  /\ decode_danmu (R := ascii_stdout) 3 ExGame.ming_guard [] = Returned []
  /\ decode_danmu (R := ref_runtime) 3 Ex.dee_guard [] = Returned [Ex.dee_cmd]
  /\ decode_danmu (R := ascii_stdout) 3 Ex.dee_guard []
     = Returned [Ex.dee_cmd].
Proof. repeat split; vm_compute; reflexivity. Qed.

(** ** The command list between the two threads *)

Lemma get_danmu_list_spec q :
  fst (get_danmu_list q) = q /\ snd (get_danmu_list q) = [].
Proof. split; reflexivity. Qed.

(** Whatever the order of appends and calls, the lists the calls return,
    one after the other, then what is left, are the list at the start and
    the appended commands in the order of the appends. *)
Lemma run_actions_conserves acts :
  forall q,
    concat (fst (run_actions acts q)) ++ snd (run_actions acts q)
    = q ++ pushes acts.
Proof.
  induction acts as [|[c|] acts IH]; intros q; simpl.
  - now rewrite app_nil_r.
  - now rewrite IH, <- app_assoc.
  - specialize (IH []). destruct (run_actions acts []) as [outs left].
    simpl in *. now rewrite <- app_assoc, IH.
Qed.

Module ThreadFacts.
Import Threads.

Lemma invariant_init : invariant init.
Proof.
  unfold invariant, init; simpl. repeat split; intros; discriminate.
Qed.

Lemma invariant_step s s' : invariant s -> step s s' -> invariant s'.
Proof.
  intros (Hp & Hc & Hcopy & Hsum) Hstep.
  destruct Hstep; unfold invariant, in_flight in *; simpl in *.
  - (* the decoder takes the lock *)
    repeat split; try tauto; try congruence.
    intros H. apply Hc in H. discriminate.
  - (* it appends *)
    assert (lk = Some Producer) as -> by now apply Hp.
    assert (holds_lock_c cs = false) as Hcs
      by (destruct (holds_lock_c cs); [|reflexivity];
          destruct Hc as [_ Hc]; specialize (Hc eq_refl); discriminate).
    repeat split; try tauto.
    + destruct cs; try discriminate; exact I.
    + destruct cs; try discriminate; simpl in *;
        rewrite <- Hsum, <- ?app_assoc; reflexivity.
  - (* it releases the lock *)
    assert (lk = Some Producer) as Hlk by now apply Hp.
    subst lk. repeat split; try tauto; try discriminate.
    intros H. destruct Hc as [_ Hc]. specialize (Hc H). discriminate.
  - (* the game takes the lock *)
    repeat split; try tauto; try congruence.
    intros H. apply Hp in H. discriminate.
  - (* it copies the list *)
    repeat split; tauto.
  - (* it clears the list *)
    subst l. repeat split; try tauto.
    now rewrite app_nil_r in *.
  - (* it releases the lock *)
    assert (lk = Some Consumer) as Hlk by now apply Hc.
    subst lk. repeat split; try tauto; try discriminate.
    intros H. destruct Hp as [_ Hp]. specialize (Hp H). discriminate.
  - (* it returns the copy *)
    repeat split; try tauto.
    rewrite concat_app. simpl. rewrite app_nil_r, <- app_assoc. exact Hsum.
Qed.

Lemma reachable_invariant s : reachable s -> invariant s.
Proof.
  induction 1 as [|s s' _ IH Hstep];
    [apply invariant_init | exact (invariant_step _ _ IH Hstep)].
Qed.

(** The two threads are never both between [acquire] and [release]. *)
Lemma mutual_exclusion s :
  reachable s -> holds_lock_p (prod s) = true -> holds_lock_c (cons s) = true ->
  False.
Proof.
  intros (Hp & Hc & _)%reachable_invariant H1 H2.
  apply Hp in H1. apply Hc in H2. congruence.
Qed.

(** A call of [get_danmu_list] that finds the lock free, statement by
    statement: [delivered] gains what [get_danmu_list] returns and the
    shared list becomes what it leaves. *)
Lemma drain_steps sh pr pu de :
  exists s1 s2 s3 s4,
    step (St None sh pr CIdle pu de) s1 /\ step s1 s2 /\ step s2 s3
    /\ step s3 s4
    /\ step s4 (St None (snd (get_danmu_list sh)) pr CIdle pu
                  (de ++ [fst (get_danmu_list sh)])).
Proof.
  exists (St (Some Consumer) sh pr CLocked pu de),
         (St (Some Consumer) sh pr (CCopied sh) pu de),
         (St (Some Consumer) [] pr (CCleared sh) pu de),
         (St None [] pr (CReleased sh) pu de).
  repeat split; constructor.
Qed.

End ThreadFacts.

(** C9: [get_danmu_list] returns the list as it stands, in the order of
    the appends, and leaves it empty, so that a second call with no append
    in between returns the empty list.  No command is lost and none is
    returned twice: in every sequence of appends and calls, and in every
    state the two threads can reach statement by statement under the
    lock, the lists returned so far, then the copy a call in progress has
    taken out, then the shared list, are exactly the commands appended, in
    the order of the appends. *)
Theorem drain_exactly_once :
  (forall q, get_danmu_list q = (q, []))
  /\ (forall q, fst (get_danmu_list (snd (get_danmu_list q))) = [])
  /\ (forall acts q,
        concat (fst (run_actions acts q)) ++ snd (run_actions acts q)
        = q ++ pushes acts)
  /\ (forall s,
        Threads.reachable s ->
        concat (Threads.delivered s) ++ Threads.in_flight s ++ Threads.shared s
        = Threads.pushed s).
Proof.
  split; [reflexivity|]. split; [reflexivity|]. split.
  - intros acts q. apply run_actions_conserves.
  - intros s Hs. apply ThreadFacts.reachable_invariant in Hs.
    apply Hs.
Qed.

(** A run in which amy's command is appended while a call that took bob's
    command out has released the lock and not returned yet. *)
Lemma drain_exactly_once_witness :
  concat [[Ex.bob_cmd]] ++ [] ++ [Ex.amy_cmd] = [Ex.bob_cmd; Ex.amy_cmd].
Proof.
  assert (H : Threads.reachable
                (Threads.St None [Ex.amy_cmd] Threads.PIdle Threads.CIdle
                   [Ex.bob_cmd; Ex.amy_cmd] [[Ex.bob_cmd]])).
  { pose proof Threads.reach_init as H. unfold Threads.init in H.
    apply (fun H => Threads.reach_step _ _ H
                      (Threads.p_acquire Ex.bob_cmd _ _ _ _)) in H.
    apply (fun H => Threads.reach_step _ _ H
                      (Threads.p_append _ _ _ _ _ _)) in H.
    apply (fun H => Threads.reach_step _ _ H
                      (Threads.p_release _ _ _ _ _)) in H.
    apply (fun H => Threads.reach_step _ _ H
                      (Threads.c_acquire _ _ _ _)) in H.
    apply (fun H => Threads.reach_step _ _ H
                      (Threads.c_copy _ _ _ _ _)) in H.
    apply (fun H => Threads.reach_step _ _ H
                      (Threads.c_clear _ _ _ _ _ _)) in H.
    apply (fun H => Threads.reach_step _ _ H
                      (Threads.c_release _ _ _ _ _ _)) in H.
    apply (fun H => Threads.reach_step _ _ H
                      (Threads.p_acquire Ex.amy_cmd _ _ _ _)) in H.
    apply (fun H => Threads.reach_step _ _ H
                      (Threads.p_append _ _ _ _ _ _)) in H.
    apply (fun H => Threads.reach_step _ _ H
                      (Threads.p_release _ _ _ _ _)) in H.
    apply (fun H => Threads.reach_step _ _ H
                      (Threads.c_return _ _ _ _ _ _)) in H.
    exact H. }
  exact (proj2 (proj2 (proj2 drain_exactly_once)) _ H).
Defined.

(** ** The matcher against the declarative patterns *)

Section MatcherFacts.
Context {R : PyRuntime}.

(** What [exec] accepts, [matches] accepts: the pattern took a prefix
    [p] of the subject and the rest of the pattern went on behind it. *)
Lemma exec_sound r :
  forall s i m k res,
    exec r s i m k = Some res ->
    exists p s' m',
      s = p ++ s' /\ matches r p i m m'
      /\ k s' (i + List.length p)%nat m' = Some res.
Proof.
  induction r as [|c|lo hi| |r1 IH1 r2 IH2|r1 IH1 r2 IH2|r1 IH1|n r1 IH1];
    intros s i m k res H; cbn [exec] in H.
  - exists [], s, m. rewrite Nat.add_0_r. repeat split; [constructor | exact H].
  - destruct s as [|x s']; [discriminate|].
    destruct (x =? c) eqn:E; [|discriminate]. apply Z.eqb_eq in E. subst x.
    exists [c], s', m. rewrite Nat.add_1_r.
    repeat split; [constructor | exact H].
  - destruct s as [|x s']; [discriminate|].
    destruct ((lo <=? x) && (x <=? hi)) eqn:E; [|discriminate].
    apply andb_true_iff in E as [E1 E2]. apply Z.leb_le in E1, E2.
    exists [x], s', m. rewrite Nat.add_1_r.
    repeat split; [constructor; lia | exact H].
  - destruct s as [|x s']; [discriminate|].
    destruct (decimal x) as [v|] eqn:E; [|discriminate].
    exists [x], s', m. rewrite Nat.add_1_r.
    repeat split; [econstructor; eassumption | exact H].
  - apply IH1 in H as (p1 & s1 & m1 & -> & Hm1 & H).
    apply IH2 in H as (p2 & s2 & m2 & -> & Hm2 & H).
    exists (p1 ++ p2), s2, m2. rewrite length_app, Nat.add_assoc, app_assoc.
    repeat split; [econstructor; eassumption | exact H].
  - destruct (exec r1 s i m k) as [res1|] eqn:E1.
    + injection H as <-. apply IH1 in E1 as (p & s' & m' & -> & Hm & Hk).
      exists p, s', m'. repeat split; [now apply M_AltL | exact Hk].
    + apply IH2 in H as (p & s' & m' & -> & Hm & Hk).
      exists p, s', m'. repeat split; [now apply M_AltR | exact Hk].
  - destruct (exec r1 s i m k) as [res1|] eqn:E1.
    + injection H as <-. apply IH1 in E1 as (p & s' & m' & -> & Hm & Hk).
      exists p, s', m'. repeat split; [now apply M_OptSome | exact Hk].
    + exists [], s, m. rewrite Nat.add_0_r.
      repeat split; [apply M_OptNone | exact H].
  - apply IH1 in H as (p & s' & m' & -> & Hm & Hk).
    exists p, s', ((n, (i, (i + List.length p)%nat)) :: m').
    repeat split; [now constructor | exact Hk].
Qed.

Lemma re_match_sound r s mo :
  re_match r s = Some mo ->
  exists p s', s = p ++ s' /\ subject mo = s /\ matches r p 0 [] (spans mo).
Proof.
  unfold re_match. intros H.
  destruct (exec r s 0 [] (fun _ _ m => Some m)) as [m|] eqn:E;
    [|discriminate].
  injection H as <-. apply exec_sound in E as (p & s' & m' & -> & Hm & Hk).
  injection Hk as <-. exists p, s'. repeat split. exact Hm.
Qed.

Ltac inv_matches :=
  repeat match goal with
  | H : matches ?r _ _ _ _ |- _ =>
      lazymatch r with
      | Eps => idtac
      | Chr _ => idtac
      | Rng _ _ => idtac
      | Dig => idtac
      | Cat _ _ => idtac
      | Alt _ _ => idtac
      | Opt _ => idtac
      | Grp _ _ => idtac
      end;
      inversion H; subst; clear H
  end.

(** Decide the test in front from the hypotheses on the characters. *)
Ltac settle :=
  match goal with
  | H : decimal ?x = _ |- context [decimal ?x] => rewrite H
  | |- context [andb (Z.leb ?lo ?x) (Z.leb ?x ?hi)] =>
      first [ rewrite (range_true lo hi x) by lia
            | rewrite (range_false lo hi x) by lia ]
  | |- context [Z.leb ?a ?b] =>
      first [ rewrite (proj2 (Z.leb_le a b)) by lia
            | rewrite (proj2 (Z.leb_gt a b)) by lia ]
  end.

(** The first cell pattern: what its three groups hold. *)
Lemma letter_digits_command user text mo :
  re_match pat_letter_digits text = Some mo ->
  exists c,
    cell_command user mo 2 3 = Some c
    /\ well_formed c = true /\ fst (fst c) = user.
Proof.
  intros (p & s' & -> & Hs & Hm)%re_match_sound.
  destruct mo as [subj sp]. cbn [subject spans] in *. subst subj.
  unfold pat_letter_digits, marks, letter, digits in Hm.
  inv_matches; unfold cell_command, group; cbn; unfold fw_bang; cbn;
    repeat (settle; cbn);
    (eexists; split; [reflexivity|]; split; [|reflexivity]);
    cbn; repeat (settle; cbn); reflexivity.
Qed.

(** The second cell pattern, the number in front of the letter. *)
Lemma digits_letter_command user text mo :
  re_match pat_digits_letter text = Some mo ->
  exists c,
    cell_command user mo 3 2 = Some c
    /\ well_formed c = true /\ fst (fst c) = user.
Proof.
  intros (p & s' & -> & Hs & Hm)%re_match_sound.
  destruct mo as [subj sp]. cbn [subject spans] in *. subst subj.
  unfold pat_digits_letter, marks, letter, digits in Hm.
  inv_matches; unfold cell_command, group; cbn; unfold fw_bang; cbn;
    repeat (settle; cbn);
    (eexists; split; [reflexivity|]; split; [|reflexivity]);
    cbn; repeat (settle; cbn); reflexivity.
Qed.

(** The difficulty pattern: its group is one of the four words. *)
Lemma difficulty_word text mo :
  re_match pat_difficulty text = Some mo ->
  exists w,
    group mo 1 = Some w
    /\ (upper w = lit "EASY" \/ upper w = lit "NORMAL").
Proof.
  intros (p & s' & -> & Hs & Hm)%re_match_sound.
  destruct mo as [subj sp]. cbn [subject spans] in *. subst subj.
  unfold pat_difficulty in Hm. cbn in Hm.
  inv_matches; unfold group; cbn; eexists; (split; [reflexivity|]);
    cbn; tauto.
Qed.

End MatcherFacts.

(** ** What the decoder can append *)

Section Shape.
Context {R : PyRuntime}.

Lemma classify_shape user text :
  exists cs,
    classify user text = Some cs
    /\ (List.length cs <= 1)%nat /\ Forall (sent_by user) cs.
Proof.
  unfold classify.
  destruct (re_match pat_letter_digits text) as [mo|] eqn:E1.
  { destruct (letter_digits_command user text mo E1) as (c & -> & Hc).
    exists [c]. repeat split; [simpl; lia | now constructor]. }
  destruct (re_match pat_digits_letter text) as [mo|] eqn:E2.
  { destruct (digits_letter_command user text mo E2) as (c & -> & Hc).
    exists [c]. repeat split; [simpl; lia | now constructor]. }
  destruct (re_match pat_difficulty text) as [mo|] eqn:E3.
  { destruct (difficulty_word text mo E3) as (w & -> & Hw).
    eexists. split; [reflexivity|]. split; [simpl; lia|].
    constructor; [|constructor]. split; [|reflexivity].
    cbn [well_formed]. destruct Hw as [-> | ->]; reflexivity. }
  exists []. repeat split; [simpl; lia | constructor].
Qed.

(** The body of the [try] appends at most one command, and a well-formed
    one. *)
Lemma business_shape jd cs :
  business jd = Some cs ->
  (List.length cs <= 1)%nat /\ Forall (fun c => well_formed c = true) cs.
Proof.
  unfold business, py_print. intros H.
  destruct (getitem jd (lit "cmd")) as [cmd|]; [|discriminate].
  destruct (eq_lit cmd (lit "SEND_GIFT")).
  { destruct (getitem jd (lit "data")) as [d|]; [|discriminate].
    destruct (getitem d (lit "uname")) as [u|]; [|discriminate].
    destruct (getitem d (lit "num")) as [k|]; [|discriminate].
    destruct (getitem d (lit "giftName")) as [g|]; [|discriminate].
    destruct (print_ok [u; k; g]); [|discriminate].
    destruct (eq_lit g tracked_gift); injection H as <-;
      split; simpl; try lia; repeat constructor. }
  destruct (eq_lit cmd (lit "GUARD_BUY")).
  { destruct (getitem jd (lit "data")) as [d|]; [|discriminate].
    destruct (getitem d (lit "username")) as [u|]; [|discriminate].
    destruct (print_ok [u; JStr (lit "1"); JStr (lit "captain")]);
      [|discriminate].
    injection H as <-. split; simpl; try lia; repeat constructor. }
  destruct (eq_lit cmd (lit "DANMU_MSG")).
  { destruct (getitem jd (lit "info")) as [info|]; [|discriminate].
    destruct (getindex info 2) as [i2|]; [|discriminate].
    destruct (getindex i2 1) as [user|]; [|discriminate].
    destruct (getindex info 1) as [text|]; [|discriminate].
    destruct (print_ok [user; text]); [|discriminate].
    destruct text as [| | | |t| |]; try discriminate.
    destruct (classify_shape user t) as (cs' & Hcs & Hlen & Hall).
    rewrite Hcs in H. injection H as <-. split; [assumption|].
    eapply Forall_impl; [|exact Hall]. now intros c [Hc _]. }
  injection H as <-. split; simpl; try lia; constructor.
Qed.

Lemma on_message_shape data :
  (List.length (on_message data) <= 1)%nat
  /\ Forall (fun c => well_formed c = true) (on_message data).
Proof.
  unfold on_message.
  destruct (json_loads _) as [jd|]; [|split; simpl; [lia | constructor]].
  destruct (business jd) as [cs|] eqn:E;
    [now apply business_shape in E | split; simpl; [lia | constructor]].
Qed.

Lemma decode_danmu_shape depth :
  forall data q,
    Forall (fun c => well_formed c = true) q ->
    Forall (fun c => well_formed c = true)
      (queue_of (decode_danmu depth data q)).
Proof.
  induction depth as [|depth IH]; intros data q Hq; [exact Hq|].
  assert (Hframe : forall ver op f q0,
             Forall (fun c => well_formed c = true) q0 ->
             Forall (fun c => well_formed c = true)
               (queue_of (frame (decode_danmu depth) ver op f q0))).
  { intros ver op f q0 Hq0. unfold frame.
    destruct (ver =? 2).
    - destruct (zlib_decompress (skipn 16 f)); [now apply IH | exact Hq0].
    - destruct (ver =? 1); [exact Hq0|].
      destruct (op =? 5); [|exact Hq0].
      cbn [queue_of]. apply Forall_app. split; [exact Hq0|].
      apply on_message_shape. }
  simpl. destruct (header data) as [[[packet_len ver] op]|]; [|exact Hq].
  destruct (Z.of_nat (List.length data) >? packet_len); [|now apply Hframe].
  specialize (IH (skipn (Z.to_nat packet_len) data) q Hq).
  destruct (decode_danmu depth (skipn (Z.to_nat packet_len) data) q)
    as [q1|e q1]; cbn [and_then queue_of] in *; [now apply Hframe | exact IH].
Qed.

End Shape.

(** ** From the wire to the board *)

Section Consumer.
Context {R : PyRuntime} {E : PyEq}.
Variable W : Type.
Variable status : W -> json.
Variable rows : W -> Z.
Variable react : Game.call -> W -> W * bool.

Let process := Game.process_danmu_list W status rows react.

Lemma on_danmu_no_raise player st n c :
  well_formed c = true -> Game.raised (Game.on_danmu player st n c) = false.
Proof.
  destruct c as [[name op] a]. unfold Game.on_danmu, well_formed.
  intros Hc.
  destruct (eq_lit player (lit "all") || py_eq player name); [|reflexivity].
  destruct (String.eqb op "gift") eqn:Hg.
  { now destruct (eq_lit player (lit "all")). }
  destruct (String.eqb op "difficulty") eqn:Hd.
  { now destruct (negb (eq_lit st (lit "running"))). }
  destruct a as [col row|s]; [reflexivity|].
  simpl in Hc. discriminate.
Qed.

Lemma process_no_raise l :
  forall player w,
    Forall (fun c => well_formed c = true) l ->
    Game.failed (process l player w) = false.
Proof.
  unfold process.
  induction l as [|c l IH]; intros player w Hl; [reflexivity|].
  inversion Hl as [|? ? Hc Hl']; subst. cbn [Game.process_danmu_list].
  rewrite (on_danmu_no_raise player (status w) (rows w) c Hc).
  destruct (Game.perform W react _ _ w) as [player' w'].
  cbn [Game.failed]. now apply IH.
Qed.

(** An entry of another user, while a player holds the board: no call
    and no change. *)
Lemma on_danmu_other player st n c :
  eq_lit player (lit "all") = false -> py_eq player (fst (fst c)) = false ->
  Game.on_danmu player st n c
  = {| Game.player_after := player; Game.calls := []; Game.raised := false |}.
Proof.
  destruct c as [[name op] a]. cbn [fst]. intros H1 H2.
  unfold Game.on_danmu. now rewrite H1, H2.
Qed.

Lemma process_others l :
  forall player w,
    eq_lit player (lit "all") = false ->
    Forall (fun c => py_eq player (fst (fst c)) = false) l ->
    process l player w
    = {| Game.final_player := player; Game.world := w; Game.trace := [];
         Game.failed := false |}.
Proof.
  unfold process.
  induction l as [|c l IH]; intros player w Hp Hl; [reflexivity|].
  inversion Hl as [|? ? Hc Hl']; subst. cbn [Game.process_danmu_list].
  rewrite (on_danmu_other player (status w) (rows w) c Hp Hc).
  cbn [Game.calls Game.player_after Game.perform Game.raised app].
  now rewrite (IH player w Hp Hl').
Qed.

(** A chat frame appends what [classify] makes of its text, when
    [print(info)] returns, and nothing when it raises. *)
Lemma decode_chat depth data ver jd user text cs q :
  lone_frame data ver 5 -> ver <> 1 -> ver <> 2 ->
  json_loads (utf8_decode_ignore (skipn 16 data)) = Some jd ->
  chat_message jd user text -> classify user text = Some cs ->
  decode_danmu (S depth) data q
  = Returned (q ++ if print_ok [user; JStr text] then cs else []).
Proof.
  intros Hlone H1 H2 Hjd (Hcmd & info & i2 & Hinfo & Hi2 & Huser & Htext) Hcs.
  rewrite (decode_business _ _ _ _ Hlone H1 H2).
  unfold on_message, business, py_print. rewrite Hjd, Hcmd.
  cbn [eq_lit].
  change (str_eqb (lit "DANMU_MSG") (lit "SEND_GIFT")) with false.
  change (str_eqb (lit "DANMU_MSG") (lit "GUARD_BUY")) with false.
  change (str_eqb (lit "DANMU_MSG") (lit "DANMU_MSG")) with true.
  cbv iota. rewrite Hinfo, Hi2, Huser, Htext.
  destruct (print_ok [user; JStr text]); [|reflexivity].
  now rewrite Hcs.
Qed.

Lemma classify_cell_text user full_width n L r :
  (n <= 2)%nat -> is_letter L = true -> 0 <= r <= 99 ->
  classify user (bangs full_width n ++ L :: number_text r)
  = Some [(user, op_of_marks n, Pos (letter_index L) r)].
Proof.
  intros Hn HL Hr. pose proof (number_text_digits r Hr) as Hd.
  unfold number_text. destruct (r <? 10).
  - now apply classify_letter_one.
  - destruct Hd as (H1 & H2 & Hval).
    rewrite (classify_letter_two _ _ _ _ _ _ _ _ [] Hn HL H1 H2).
    now rewrite Hval.
Qed.

Lemma not_the_string j s : j <> JStr s -> eq_lit j s = false.
Proof.
  intros Hj. destruct (eq_lit j s) eqn:Hjs; [|reflexivity].
  apply eq_lit_true in Hjs. contradiction.
Qed.

Lemma not_all p : p <> lit "all" -> eq_lit (JStr p) (lit "all") = false.
Proof. intros Hp. apply not_the_string. congruence. Qed.

(** X12: The drained list of any buffer goes through [process_danmu_list]
    without an exception: every entry the decoder appends has the shape
    the loop indexes ([danmu[2][1]] is only read on a cell). *)
Theorem process_decoded_never_raises depth data player w :
  Game.failed
    (process (fst (get_danmu_list (queue_of (decode_danmu depth data []))))
       player w)
  = false.
Proof.
  apply process_no_raise. cbn [get_danmu_list fst].
  apply decode_danmu_shape. constructor.
Qed.

Lemma other_users_ignored_aux l p w :
  p <> lit "all" ->
  Forall (fun c => fst (fst c) <> JStr p) l ->
  process l (JStr p) w
  = {| Game.final_player := JStr p; Game.world := w; Game.trace := [];
       Game.failed := false |}.
Proof.
  intros Hp Hl. apply process_others; [now apply not_all|].
  eapply Forall_impl; [|exact Hl].
  intros c Hc. rewrite py_eq_str_l. now apply not_the_string.
Qed.

(** X13: While the player [p] holds the board, entries of anyone else change
    nothing: no call on the board or the timer, the player stays, however
    the board would react. *)
Theorem other_users_ignored l p w :
  p <> lit "all" ->
  Forall (fun c => fst (fst c) <> JStr p) l ->
  process l (JStr p) w
  = {| Game.final_player := JStr p; Game.world := w; Game.trace := [];
       Game.failed := false |}.
Proof. apply other_users_ignored_aux. Qed.

Lemma on_danmu_first_gift st n name a :
  Game.on_danmu (JStr (lit "all")) st n (name, "gift"%string, a)
  = {| Game.player_after := name;
       Game.calls := [Game.TimerStart Game.PLAYER_INPUT_INTERVAL_MS];
       Game.raised := false |}.
Proof. reflexivity. Qed.

(** X14: While nobody holds the board, a gift at the head of a list
    starts the input timer.  When its sender has a name other than
    [all], the sender becomes the player and what the others sent
    behind it in the same list is ignored.  A sender called [all] does
    not take the board: the player stays [all], and the rest of the list
    is handled as if nobody held the board. *)
Theorem first_gift_takes_board u a l w :
  (u <> lit "all" ->
   Forall (fun c => fst (fst c) <> JStr u) l ->
   process ((JStr u, "gift"%string, a) :: l) (JStr (lit "all")) w
   = {| Game.final_player := JStr u; Game.world := w;
        Game.trace := [Game.TimerStart 60000]; Game.failed := false |})
  /\ (u = lit "all" ->
      process ((JStr u, "gift"%string, a) :: l) (JStr (lit "all")) w
      = {| Game.final_player :=
             Game.final_player (process l (JStr (lit "all")) w);
           Game.world := Game.world (process l (JStr (lit "all")) w);
           Game.trace :=
             Game.TimerStart 60000
             :: Game.trace (process l (JStr (lit "all")) w);
           Game.failed :=
             Game.failed (process l (JStr (lit "all")) w) |}).
Proof.
  split.
  - intros Hu Hl. unfold process. cbn [Game.process_danmu_list].
    rewrite on_danmu_first_gift.
    cbn [Game.calls Game.player_after Game.raised Game.perform].
    fold process. rewrite (other_users_ignored_aux l u w Hu Hl).
    reflexivity.
  - intros ->. unfold process. cbn [Game.process_danmu_list].
    rewrite on_danmu_first_gift.
    cbn [Game.calls Game.player_after Game.raised Game.perform].
    reflexivity.
Qed.

Lemma on_danmu_cell st n_rows user n col r :
  Game.on_danmu (JStr (lit "all")) st n_rows (user, op_of_marks n, Pos col r)
  = {| Game.player_after := JStr (lit "all");
       Game.calls := [tile_call n (n_rows - r - 1) col];
       Game.raised := false |}.
Proof.
  destruct n as [|[|[|n]]]; reflexivity.
Qed.

(** X15: From the wire to the board: while nobody holds the board, a
    chat frame whose text is markers, a letter and a number makes
    [process_danmu_list] call the board once when [print(info)]
    returned in the decoder, and not at all when it raised (nothing was
    appended then).  The call is on row [n_rows - 1 - number], whether
    the board has such a row or not, and on the column of the letter:
    [open_tile] for no marker, [check_tile_if_unchecked] for one,
    [uncheck_tile_if_checked] for two.  The row is a row of the board
    exactly when the number is below [n_rows]. *)
Theorem chat_reaches_tile depth data ver jd user full_width n L r w :
  lone_frame data ver 5 -> ver <> 1 -> ver <> 2 ->
  json_loads (utf8_decode_ignore (skipn 16 data)) = Some jd ->
  chat_message jd user (bangs full_width n ++ L :: number_text r) ->
  (n <= 2)%nat -> is_letter L = true -> 0 <= r <= 99 ->
  let drained :=
    fst (get_danmu_list (queue_of (decode_danmu (S depth) data []))) in
  Game.trace (process drained (JStr (lit "all")) w)
  = (if print_ok [user; JStr (bangs full_width n ++ L :: number_text r)]
     then [tile_call n (rows w - r - 1) (letter_index L)]
     else [])
  /\ (0 <= rows w - r - 1 < rows w <-> r < rows w).
Proof.
  intros Hlone H1 H2 Hjd Hchat Hn HL Hr drained. subst drained.
  rewrite (decode_chat depth data ver jd user _ _ [] Hlone H1 H2 Hjd Hchat
             (classify_cell_text user full_width n L r Hn HL Hr)).
  split; [|lia].
  destruct (print_ok _); [|reflexivity].
  cbn [app queue_of get_danmu_list fst]. unfold process.
  cbn [Game.process_danmu_list]. rewrite on_danmu_cell.
  cbn [Game.calls Game.player_after Game.raised].
  destruct (Game.perform W react _ _ w) as [player' w'].
  reflexivity.
Qed.

(** X16: A [difficulty] entry of a decoded buffer always carries [EASY] or
    [NORMAL]: [set_difficulty] does not raise on it and leaves one of two
    settings, 10 x 10 with 10 mines and tiles of 55, or 16 x 16 with 40
    mines and tiles of 34, whatever the settings were. *)
Theorem difficulty_entry_configures depth data name a g :
  In (name, "difficulty"%string, a) (queue_of (decode_danmu depth data [])) ->
  let g' := fst (Game.set_difficulty a g) in
  (exists word, snd (Game.set_difficulty a g) = Some (Game.hint_prefix ++ word))
  /\ ((Game.n_rows g', Game.n_cols g', Game.n_mines g', Game.tile_size g')
      = (10, 10, 10, Some 55)
      \/ (Game.n_rows g', Game.n_cols g', Game.n_mines g', Game.tile_size g')
         = (16, 16, 40, Some 34))
  /\ Game.n_mines g' < Game.n_rows g' * Game.n_cols g'.
Proof.
  intros Hin g'. subst g'.
  assert (Hwf : well_formed (name, "difficulty"%string, a) = true).
  { pose proof (decode_danmu_shape depth data [] (Forall_nil _)) as Hall.
    rewrite Forall_forall in Hall. now apply Hall. }
  destruct a as [col row|s]; [discriminate|].
  cbn in Hwf. apply orb_true_iff in Hwf as [Hs|Hs];
    apply str_eqb_eq in Hs; subst s.
  - split; [eexists; reflexivity|]. split; [left; reflexivity | reflexivity].
  - split; [eexists; reflexivity|]. split; [right; reflexivity | reflexivity].
Qed.

End Consumer.

(** ** More on the decoder *)

Lemma byte_val_range b : 0 <= byte_val b < 256.
Proof.
  unfold byte_val. pose proof (Byte.to_N_bounded b). lia.
Qed.

Lemma fold_hex_bound b :
  forall acc M,
    0 <= acc < M ->
    0 <= fold_left (fun a x => a * 256 + byte_val x) b acc
    < M * 256 ^ Z.of_nat (List.length b).
Proof.
  induction b as [|x b IH]; intros acc M Hacc.
  - simpl. lia.
  - cbn [fold_left List.length]. pose proof (byte_val_range x).
    rewrite Nat2Z.inj_succ, Z.pow_succ_r by lia.
    replace (M * (256 * 256 ^ Z.of_nat (List.length b)))
      with (M * 256 * 256 ^ Z.of_nat (List.length b)) by ring.
    apply IH. nia.
Qed.

Lemma int_of_hex_bound b v :
  int_of_hex b = Some v -> 0 <= v < 256 ^ Z.of_nat (List.length b).
Proof.
  unfold int_of_hex. destruct b as [|x b]; [discriminate|].
  intros [= <-].
  pose proof (fold_hex_bound (x :: b) 0 1 ltac:(lia)) as H.
  rewrite Z.mul_1_l in H. exact H.
Qed.

Lemma slice_length a b (data : bytes) :
  (List.length (slice a b data) <= b - a)%nat.
Proof. unfold slice. rewrite length_firstn. lia. Qed.

(** X6: The three header fields are unsigned: the length field is below
    2^32 and never negative, so [data[packet_len:]] and
    [data[:packet_len]] cut the buffer from its start. *)
Theorem header_fields_bounded data packet_len ver op :
  header data = Some (packet_len, ver, op) ->
  0 <= packet_len < 2 ^ 32 /\ 0 <= ver < 2 ^ 16 /\ 0 <= op < 2 ^ 32
  /\ firstn (Z.to_nat packet_len) data ++ skipn (Z.to_nat packet_len) data
     = data.
Proof.
  unfold header. intros H.
  destruct (int_of_hex (slice 0 4 data)) as [x|] eqn:E1; [|discriminate].
  destruct (int_of_hex (slice 6 8 data)) as [y|] eqn:E2; [|discriminate].
  destruct (int_of_hex (slice 8 12 data)) as [z|] eqn:E3; [|discriminate].
  injection H as <- <- <-.
  apply int_of_hex_bound in E1, E2, E3.
  pose proof (slice_length 0 4 data). pose proof (slice_length 6 8 data).
  pose proof (slice_length 8 12 data).
  assert (Hpow : forall n k, (n <= k)%nat ->
                   256 ^ Z.of_nat n <= 256 ^ Z.of_nat k)
    by (intros; apply Z.pow_le_mono_r; lia).
  pose proof (Hpow _ _ H). pose proof (Hpow _ _ H0). pose proof (Hpow _ _ H1).
  change (256 ^ Z.of_nat (4 - 0)) with (2 ^ 32) in *.
  change (256 ^ Z.of_nat (8 - 6)) with (2 ^ 16) in *.
  change (256 ^ Z.of_nat (12 - 8)) with (2 ^ 32) in *.
  repeat split; try lia. apply firstn_skipn.
Qed.

Section DecoderMore.
Context {R : PyRuntime}.

Lemma onto_nil o : onto [] o = o.
Proof. destruct o; reflexivity. Qed.

Lemma onto_onto q1 q2 o : onto q1 (onto q2 o) = onto (q1 ++ q2) o.
Proof. destruct o; simpl; now rewrite app_assoc. Qed.

Lemma decode_danmu_onto depth :
  forall data q,
    decode_danmu depth data q = onto q (decode_danmu depth data []).
Proof.
  induction depth as [|depth IH]; intros data q.
  - simpl. now rewrite app_nil_r.
  - assert (Hframe : forall ver op f q0,
               frame (decode_danmu depth) ver op f q0
               = onto q0 (frame (decode_danmu depth) ver op f [])).
    { intros ver op f q0. unfold frame.
      destruct (ver =? 2).
      - destruct (zlib_decompress (skipn 16 f)) as [inner|].
        + apply IH.
        + simpl. now rewrite app_nil_r.
      - destruct (ver =? 1); [simpl; now rewrite app_nil_r|].
        destruct (op =? 5); [reflexivity | simpl; now rewrite app_nil_r]. }
    simpl. destruct (header data) as [[[packet_len ver] op]|].
    2:{ simpl. now rewrite app_nil_r. }
    destruct (Z.of_nat (List.length data) >? packet_len); [|apply Hframe].
    rewrite (IH (skipn (Z.to_nat packet_len) data) q).
    destruct (decode_danmu depth (skipn (Z.to_nat packet_len) data) [])
      as [m|e m]; cbn [onto and_then app]; [|reflexivity].
    rewrite (Hframe ver op _ (q ++ m)), (Hframe ver op _ m).
    now rewrite onto_onto.
Qed.

(** X3: The decoder only appends, and what it appends does not depend on
    what the list holds: a call on the list [q] ends like the call on the
    empty list, with [q] in front, and every entry appended has the shape
    [process_danmu_list] expects. *)
Theorem decode_danmu_appends_well_formed depth data q :
  decode_danmu depth data q = onto q (decode_danmu depth data [])
  /\ Forall (fun c => well_formed c = true)
       (queue_of (decode_danmu depth data [])).
Proof.
  split; [apply decode_danmu_onto|].
  apply decode_danmu_shape. constructor.
Qed.

(** X4: The code between [lock.acquire()] and [lock.release()] of the chat
    branch cannot raise: on every text the groups it reads took part in
    the match, [ord] gets one character and [int] gets digits.  A text
    gives at most one command, of the expected shape and under the name
    of its sender. *)
Theorem chat_text_one_command user text :
  exists cs,
    classify user text = Some cs
    /\ (List.length cs <= 1)%nat /\ Forall (sent_by user) cs.
Proof. apply classify_shape. Qed.

Lemma tree_size_pos t : (1 <= tree_size t)%nat.
Proof. destruct t; simpl; lia. Qed.

Lemma tree_header t :
  valid_tree t ->
  exists ver op,
    header (tree_bytes t) = Some (Z.of_nat (List.length (tree_bytes t)), ver, op)
    /\ (16 <= List.length (tree_bytes t))%nat.
Proof.
  destruct t as [f|f inner]; cbn [valid_tree tree_bytes].
  - intros (ver & op & Hh & Hmin & _)%uncompressed_frame_inv.
    now exists ver, op.
  - intros (Hmin & (op & Hh) & _). now exists 2, op.
Qed.

Lemma forest_bytes_nonempty ts :
  ts <> [] -> valid_forest ts -> forest_bytes ts <> [].
Proof.
  destruct ts as [|t ts]; [congruence|]. intros _ [Ht _].
  apply tree_header in Ht as (_ & _ & _ & Hmin).
  unfold forest_bytes. cbn [map concat].
  destruct (tree_bytes t); simpl in *; [lia | congruence].
Qed.

(** The frame of a tree, once the rest of its buffer is decoded. *)
Lemma frame_tree depth t ver op q :
  (forall ts q0,
      ts <> [] -> valid_forest ts -> (forest_size ts <= depth)%nat ->
      decode_danmu depth (forest_bytes ts) q0
      = Returned (q0 ++ forest_commands ts)) ->
  valid_tree t -> (tree_size t <= S depth)%nat ->
  header (tree_bytes t) = Some (Z.of_nat (List.length (tree_bytes t)), ver, op) ->
  frame (decode_danmu depth) ver op (tree_bytes t) q
  = Returned (q ++ tree_commands t).
Proof.
  intros IH Ht Hsize Hh. destruct t as [f|f inner].
  - cbn [valid_tree tree_bytes tree_commands] in *.
    apply uncompressed_frame_inv in Ht as (ver' & op' & Hh' & _ & Hver).
    rewrite Hh in Hh'. injection Hh' as -> ->.
    exact (frame_leaf _ _ _ _ _ _ Hh Hver).
  - cbn [tree_bytes] in *.
    destruct Ht as (Hmin & (op' & Hh') & Hz & Hne & Hall).
    rewrite Hh in Hh'. injection Hh' as -> ->.
    unfold frame. cbn [Z.eqb Pos.eqb]. rewrite Hz.
    apply IH; [assumption | exact Hall|].
    change (tree_size (Packed f inner)) with (S (forest_size inner)) in Hsize.
    lia.
Qed.

Lemma decode_forest depth :
  forall ts q,
    ts <> [] -> valid_forest ts -> (forest_size ts <= depth)%nat ->
    decode_danmu depth (forest_bytes ts) q
    = Returned (q ++ forest_commands ts).
Proof.
  induction depth as [|depth IH]; intros ts q Hne Hall Hsize.
  { destruct ts as [|t ts]; [congruence|].
    pose proof (tree_size_pos t).
    change (forest_size (t :: ts)) with (tree_size t + forest_size ts)%nat
      in Hsize. lia. }
  destruct ts as [|t ts]; [congruence|]. destruct Hall as [Ht Hts].
  change (forest_size (t :: ts)) with (tree_size t + forest_size ts)%nat
    in Hsize.
  pose proof (tree_size_pos t) as Hpos.
  destruct (tree_header t Ht) as (ver & op & Hh & Hmin).
  change (forest_bytes (t :: ts)) with (tree_bytes t ++ forest_bytes ts).
  change (forest_commands (t :: ts))
    with (forest_commands ts ++ tree_commands t).
  destruct ts as [|t' ts'].
  - change (forest_bytes []) with (@nil byte). rewrite app_nil_r.
    assert (Hlone : lone_frame (tree_bytes t) ver op)
      by (eexists; split; [exact Hh | lia]).
    rewrite (decode_lone _ _ _ _ _ Hlone).
    apply frame_tree; [exact IH | exact Ht | lia | exact Hh].
  - rewrite (decode_split depth (tree_bytes t) _ _ ver op q Hh eq_refl)
      by first [lia | apply forest_bytes_nonempty; [congruence | exact Hts]].
    rewrite IH by first [congruence | exact Hts | lia].
    cbn [and_then].
    rewrite (frame_tree depth t ver op _ IH Ht ltac:(lia) Hh).
    now rewrite app_assoc.
Qed.

(** X1: A buffer of nested frames: plain frames and version-2 frames whose
    payload is such a buffer again, to any depth.  With as many nested
    calls allowed as the buffer has frames, [decode_danmu] returns, and
    it has appended what the plain frames yield, each once, in the
    reverse of the order in which they stand: in the buffer, and in each
    payload. *)
Theorem decode_nested_buffer depth ts q :
  ts <> [] -> valid_forest ts -> (forest_size ts <= depth)%nat ->
  decode_danmu depth (forest_bytes ts) q = Returned (q ++ forest_commands ts).
Proof. apply decode_forest. Qed.

(** X2: Across messages the order of arrival is kept: [recv_danmu] appends
    what the first message yields, then what the second yields, and so
    on; only inside one message the frames come out last to first. *)
Theorem recv_keeps_message_order depth msgs :
  forall q,
    Forall (fun ts => ts <> [] /\ valid_forest ts
                      /\ (forest_size ts <= depth)%nat) msgs ->
    recv_danmu depth (map forest_bytes msgs) q
    = Returned (q ++ concat (map forest_commands msgs)).
Proof.
  induction msgs as [|ts msgs IH]; intros q Hall.
  - simpl. now rewrite app_nil_r.
  - inversion Hall as [|? ? (Hne & Hv & Hs) Hall']; subst.
    cbn [map recv_danmu concat].
    rewrite (decode_forest depth ts q Hne Hv Hs). cbn [and_then].
    rewrite (IH _ Hall'). now rewrite app_assoc.
Qed.

End DecoderMore.

(** ** The frames the client sends *)

Lemma pair_ind (P : str -> Prop) :
  P [] -> (forall a, P [a]) -> (forall a b s, P s -> P (a :: b :: s)) ->
  forall s, P s.
Proof.
  intros H0 H1 H2.
  assert (H : forall s, P s /\ forall a, P (a :: s)).
  { induction s as [|b s [IHs IHa]]; split; auto. }
  intros s. apply H.
Qed.

Lemma hex_not_space c x : hex_value c = Some x -> is_space c = false.
Proof.
  unfold hex_value, is_space. intros H.
  destruct ((48 <=? c) && (c <=? 57)) eqn:E1.
  { apply andb_true_iff in E1 as [A B]. apply Z.leb_le in A, B.
    rewrite (proj2 (Z.eqb_neq c 32)) by lia.
    now rewrite range_false by lia. }
  destruct ((97 <=? c) && (c <=? 102)) eqn:E2.
  { apply andb_true_iff in E2 as [A B]. apply Z.leb_le in A, B.
    rewrite (proj2 (Z.eqb_neq c 32)) by lia.
    now rewrite range_false by lia. }
  destruct ((65 <=? c) && (c <=? 70)) eqn:E3; [|discriminate].
  apply andb_true_iff in E3 as [A B]. apply Z.leb_le in A, B.
  rewrite (proj2 (Z.eqb_neq c 32)) by lia.
  now rewrite range_false by lia.
Qed.

Lemma fromhex_pair a b s x y :
  hex_value a = Some x -> hex_value b = Some y ->
  fromhex (a :: b :: s)
  = match fromhex s with
    | Some rest => Some (Ref.byte_of (16 * x + y) :: rest)
    | None => None
    end.
Proof.
  intros Ha Hb. cbn [fromhex].
  now rewrite (hex_not_space a x Ha), Ha, Hb.
Qed.

(** Pairs of hex digits in front are read off, whatever follows. *)
Lemma fromhex_app s1 :
  hex_pairs s1 = true ->
  exists b1,
    fromhex s1 = Some b1
    /\ forall s2, fromhex (s1 ++ s2) = option_map (app b1) (fromhex s2).
Proof.
  induction s1 as [|a|a b s1 IH] using pair_ind; intros H.
  - exists []. split; [reflexivity|]. intros s2. cbn [app].
    now destruct (fromhex s2).
  - discriminate.
  - cbn [hex_pairs] in H.
    destruct (hex_value a) as [x|] eqn:Ha; [|discriminate].
    destruct (hex_value b) as [y|] eqn:Hb; [|discriminate].
    destruct (IH H) as (b1 & H1 & Happ).
    exists (Ref.byte_of (16 * x + y) :: b1). split.
    + now rewrite (fromhex_pair a b s1 x y Ha Hb), H1.
    + intros s2. cbn [app].
      rewrite (fromhex_pair a b (s1 ++ s2) x y Ha Hb), Happ.
      now destruct (fromhex s2).
Qed.

(** An odd number of hex digits cannot be read. *)
Lemma fromhex_odd s :
  all_hex s = true -> Nat.odd (List.length s) = true -> fromhex s = None.
Proof.
  induction s as [|a|a b s IH] using pair_ind; intros Hall Hodd.
  - discriminate.
  - unfold all_hex in Hall. cbn [forallb] in Hall.
    destruct (hex_value a) as [x|] eqn:Ha; [|discriminate].
    cbn [fromhex]. now rewrite (hex_not_space a x Ha), Ha.
  - unfold all_hex in Hall. cbn [forallb] in Hall.
    destruct (hex_value a) as [x|] eqn:Ha; [|discriminate].
    destruct (hex_value b) as [y|] eqn:Hb; [|discriminate].
    rewrite (fromhex_pair a b s x y Ha Hb).
    rewrite IH; [reflexivity | exact Hall|].
    cbn [List.length] in Hodd. now rewrite Nat.odd_succ_succ in Hodd.
Qed.

Lemma hex_value_digit d : 0 <= d < 16 -> hex_value (hex_digit d) = Some d.
Proof.
  intros Hd. unfold hex_digit, hex_value.
  destruct (d <? 10) eqn:E.
  - apply Z.ltb_lt in E. rewrite range_true by lia. f_equal. lia.
  - apply Z.ltb_ge in E. rewrite range_false by lia.
    rewrite range_true by lia. f_equal. lia.
Qed.

Ltac dlia := Z.div_mod_to_equations; lia.

Lemma hex_digits_step f n acc :
  hex_digits (S f) n acc
  = if n <? 16 then hex_digit n :: acc
    else hex_digits f (n / 16) (hex_digit (n mod 16) :: acc).
Proof. reflexivity. Qed.

Lemma py_hex_two c :
  16 <= c <= 255 -> py_hex c = [hex_digit (c / 16); hex_digit (c mod 16)].
Proof.
  intros Hc. unfold py_hex.
  replace (Z.to_nat c) with (S (Z.to_nat c - 1)) by lia.
  rewrite !hex_digits_step.
  rewrite (proj2 (Z.ltb_ge c 16)) by lia.
  now rewrite (proj2 (Z.ltb_lt (c / 16) 16)) by dlia.
Qed.

Lemma py_hex_three c :
  256 <= c <= 4095 ->
  py_hex c
  = [hex_digit (c / 16 / 16); hex_digit ((c / 16) mod 16);
     hex_digit (c mod 16)].
Proof.
  intros Hc. unfold py_hex.
  replace (Z.to_nat c) with (S (S (Z.to_nat c - 2))) by lia.
  rewrite !hex_digits_step.
  rewrite (proj2 (Z.ltb_ge c 16)) by lia.
  rewrite (proj2 (Z.ltb_ge (c / 16) 16)) by dlia.
  now rewrite (proj2 (Z.ltb_lt (c / 16 / 16) 16)) by dlia.
Qed.

Lemma room_hex_pairs room :
  Forall room_char room ->
  hex_pairs (concat (map py_hex room)) = true
  /\ fromhex (concat (map py_hex room)) = Some (map Ref.byte_of room)
  /\ List.length (concat (map py_hex room)) = (2 * List.length room)%nat
  /\ all_hex (concat (map py_hex room)) = true.
Proof.
  induction 1 as [|c room Hc _ (IH1 & IH2 & IH3 & IH4)].
  - repeat split.
  - unfold room_char in Hc. cbn [map concat].
    rewrite (py_hex_two c Hc). cbn [app hex_pairs List.length].
    assert (H1 : hex_value (hex_digit (c / 16)) = Some (c / 16))
      by (apply hex_value_digit; dlia).
    assert (H2 : hex_value (hex_digit (c mod 16)) = Some (c mod 16))
      by (apply hex_value_digit; dlia).
    rewrite H1, H2. repeat split.
    + exact IH1.
    + rewrite (fromhex_pair _ _ _ _ _ H1 H2), IH2.
      do 3 f_equal. dlia.
    + rewrite IH3. lia.
    + unfold all_hex in *. cbn [forallb]. now rewrite H1, H2.
Qed.

Lemma byte_val_of z : 0 <= z < 256 -> byte_val (Ref.byte_of z) = z.
Proof.
  intros Hz. unfold byte_val, Ref.byte_of.
  destruct (Byte.of_N (Z.to_N z)) as [b|] eqn:E.
  - apply Byte.to_of_N in E. lia.
  - apply Byte.of_N_None_iff in E. lia.
Qed.

Lemma be_small v :
  0 <= v < 256 ->
  Wire.be 4 v = [Ref.byte_of 0; Ref.byte_of 0; Ref.byte_of 0; Ref.byte_of v].
Proof.
  intros Hv. cbn [Wire.be app].
  rewrite (Z.div_small v 256), (Z.mod_small v 256) by lia. reflexivity.
Qed.

Lemma join_payload_length room_id :
  Z.of_nat (List.length (join_payload room_id))
  = 11 + Z.of_nat (List.length room_id).
Proof.
  unfold join_payload. rewrite !length_app.
  cbn [List.length Wire.quoted lit list_ascii_of_string map app]. lia.
Qed.

(** X10: The join frame as the decoder and the server read it: a header of
    16 bytes whose length field is the size of the frame, version 1,
    opcode 7, sequence 1, and the payload [{"roomid":] the room [}].
    This holds for a room of up to 228 characters, each written by
    [hex] with two digits (the ASCII digits are). *)
Theorem startup_frame_is_join_packet room_id :
  Forall room_char room_id -> (List.length room_id <= 228)%nat ->
  exists f,
    startup_frame room_id = Some f
    /\ f = Wire.packet 1 7 (map Ref.byte_of (join_payload room_id))
    /\ header f = Some (Z.of_nat (List.length f), 1, 7)
    /\ Z.of_nat (List.length f) = 27 + Z.of_nat (List.length room_id).
Proof.
  intros Hroom Hlen.
  pose proof (join_payload_length room_id) as Hpl.
  set (v := 27 + Z.of_nat (List.length room_id)).
  assert (Hv : 27 <= v <= 255) by (unfold v; lia).
  assert (Hw : 16 + Z.of_nat (List.length
                 (map Ref.byte_of (join_payload room_id))) = v)
    by (rewrite length_map; unfold v; lia).
  assert (Hf : startup_frame room_id
               = Some (Wire.packet 1 7 (map Ref.byte_of (join_payload room_id)))).
  { unfold startup_frame, data_raw. fold v.
    destruct (room_hex_pairs room_id Hroom) as (Hp & Hbytes & _ & _).
    destruct (fromhex_app _ Hp) as (b4 & Hb4 & A4).
    rewrite Hbytes in Hb4. injection Hb4 as <-.
    destruct (fromhex_app (lit "000000") eq_refl) as (b1 & Hb1 & A1).
    vm_compute in Hb1. injection Hb1 as <-.
    destruct (fromhex_app
                (lit "0010000100000007000000017b22726f6f6d6964223a") eq_refl)
      as (b3 & Hb3 & A3).
    vm_compute in Hb3. injection Hb3 as <-.
    rewrite A1, (py_hex_two v) by lia. cbn [app].
    rewrite (fromhex_pair _ _ _ (v / 16) (v mod 16))
      by (apply hex_value_digit; dlia).
    rewrite A3, A4.
    change (fromhex (lit "7d")) with (Some [Ref.byte_of 125]).
    cbn [option_map app].
    replace (16 * (v / 16) + v mod 16) with v by dlia.
    unfold Wire.packet. rewrite Hw, (be_small v) by lia.
    unfold join_payload. rewrite !map_app. reflexivity. }
  eexists. split; [exact Hf|]. split; [reflexivity|].
  assert (Hsize : Z.of_nat (List.length
                    (Wire.packet 1 7 (map Ref.byte_of (join_payload room_id))))
                  = v).
  { unfold Wire.packet. rewrite !length_app, length_map.
    cbn [List.length Wire.be app]. unfold v. lia. }
  split; [|exact Hsize]. rewrite Hsize.
  unfold Wire.packet. rewrite Hw, (be_small v) by lia.
  unfold header, slice. cbn [app skipn firstn Nat.sub Wire.be].
  cbn [int_of_hex fold_left]. rewrite (byte_val_of v) by lia.
  reflexivity.
Qed.

(** X11: A room of 229 to 4068 such characters makes [hex] write the length
    with three digits: the text has an odd number of hex digits and
    [bytes.fromhex] raises, so [startup] sends nothing. *)
Theorem startup_frame_long_room room_id :
  Forall room_char room_id ->
  (229 <= List.length room_id <= 4068)%nat ->
  startup_frame room_id = None.
Proof.
  intros Hroom Hlen.
  set (v := 27 + Z.of_nat (List.length room_id)).
  assert (Hv : 256 <= v <= 4095) by (unfold v; lia).
  destruct (room_hex_pairs room_id Hroom) as (_ & _ & Hlen2 & Hall).
  unfold startup_frame, data_raw. fold v. rewrite (py_hex_three v Hv).
  apply fromhex_odd.
  - unfold all_hex in *. rewrite !forallb_app, Hall.
    cbn [forallb].
    rewrite !hex_value_digit by dlia. reflexivity.
  - rewrite !length_app, Hlen2.
    cbn [List.length lit list_ascii_of_string map].
    replace (6 + (3 + (44 + (2 * List.length room_id + 2))))%nat
      with (S (2 * (List.length room_id + 27)))%nat by lia.
    rewrite Nat.odd_succ. apply Nat.even_spec. now exists (List.length room_id + 27)%nat.
Qed.

(** ** The timer of the main loop *)

Lemma timer_idle times tm :
  Timer.running tm = false ->
  Timer.checks times tm = Some (repeat false (List.length times), tm).
Proof.
  intros Hr. induction times as [|now times IH]; [reflexivity|].
  cbn [Timer.checks]. unfold Timer.check at 1. rewrite Hr.
  cbn [negb Timer.after Timer.fired]. rewrite IH. reflexivity.
Qed.

Lemma timer_running times : forall tm st iv,
  Timer.running tm = true ->
  Timer.start_time tm = Some st -> Timer.interval tm = Some iv ->
  exists flags tm',
    Timer.checks times tm = Some (flags, tm')
    /\ List.length flags = List.length times
    /\ (forall k, nth k flags false = true <->
          (k < List.length times)%nat /\ st + iv <= nth k times 0
          /\ forall j, (j < k)%nat -> nth j times 0 < st + iv)
    /\ Timer.running tm' = negb (existsb (fun now => st + iv <=? now) times).
Proof.
  induction times as [|now times IH]; intros tm st iv Hr Hs Hi.
  - exists [], tm. split; [reflexivity|]. split; [reflexivity|].
    split; [|exact Hr].
    intros k. destruct k; cbn; split; intros H; try discriminate;
      destruct H as (H & _); lia.
  - cbn [Timer.checks]. unfold Timer.check at 1. rewrite Hr, Hs, Hi.
    cbn [negb]. cbn [existsb].
    destruct (st + iv - now <=? 0) eqn:Hc.
    + apply Z.leb_le in Hc.
      cbn [Timer.after Timer.fired].
      rewrite (timer_idle times (Timer.stop tm)) by reflexivity.
      exists (true :: repeat false (List.length times)), (Timer.stop tm).
      split; [reflexivity|].
      split; [cbn [List.length]; now rewrite repeat_length|].
      split.
      * intros k. destruct k as [|k]; cbn [nth List.length].
        -- split; [intros _|reflexivity].
           split; [lia|]. split; [lia|]. intros j Hj. lia.
        -- rewrite nth_repeat. split; [discriminate|].
           intros (_ & _ & H). specialize (H 0%nat ltac:(lia)).
           cbn in H. lia.
      * replace (st + iv <=? now) with true by (symmetry; apply Z.leb_le; lia).
        reflexivity.
    + apply Z.leb_gt in Hc.
      cbn [Timer.after Timer.fired].
      destruct (IH tm st iv Hr Hs Hi) as (flags & tm' & Hch & Hl & Hk & Hrun).
      rewrite Hch. exists (false :: flags), tm'.
      split; [reflexivity|]. split; [cbn [List.length]; lia|].
      split.
      * intros k. destruct k as [|k]; cbn [nth List.length].
        -- split; [discriminate|]. intros (_ & H & _). lia.
        -- rewrite Hk. split.
           ++ intros (H1 & H2 & H3). split; [lia|]. split; [exact H2|].
              intros [|j] Hj; cbn [nth]; [lia|apply H3; lia].
           ++ intros (H1 & H2 & H3). split; [lia|]. split; [exact H2|].
              intros j Hj. apply (H3 (S j)). lia.
      * replace (st + iv <=? now) with false by (symmetry; apply Z.leb_gt; lia).
        exact Hrun.
Qed.

(** X18: After [start(interval)] at time [t0], whatever the times at which
    the main loop calls [check] (and whatever the time source does),
    [check] never raises and calls the event at one call only: the
    first whose time has reached [t0 + interval].  The timer is
    running at the end exactly when no call had reached it. *)
Theorem timer_fires_once iv t0 tm times :
  exists flags tm',
    Timer.checks times (Timer.start iv t0 tm) = Some (flags, tm')
    /\ List.length flags = List.length times
    /\ (forall k, nth k flags false = true <->
          (k < List.length times)%nat /\ t0 + iv <= nth k times 0
          /\ forall j, (j < k)%nat -> nth j times 0 < t0 + iv)
    /\ Timer.running tm' = negb (existsb (fun now => t0 + iv <=? now) times).
Proof.
  apply (timer_running times (Timer.start iv t0 tm)); reflexivity.
Qed.

(** ** The board parameters and the labels of the axes *)

(** X17: [set_game_parameter] with a maximum of at least 1, on a board that
    has a row and a column: the only error is the [ValueError] of [int];
    otherwise the value returned is [int(value)] brought into
    [1 .. max_value] (1 for a value that is false), the board keeps a
    row and a column, fewer mines than cells, and [reset_game] gets a
    tile size between 0 and 550.  The number of mines stored may be
    smaller than the value returned. *)
Theorem set_game_parameter_keeps_board int_of_text p max_value v g :
  1 <= max_value -> 1 <= Game.n_rows g -> 1 <= Game.n_cols g ->
  match Game.set_game_parameter int_of_text p max_value v g with
  | Game.ValueError =>
      exists s, v = Game.VStr s /\ s <> [] /\ int_of_text s = None
  | Game.ZeroDivision _ => False
  | Game.ParameterSet g' returned tile =>
      1 <= returned <= max_value
      /\ (Game.falsy v = true -> returned = 1)
      /\ (forall z, Game.falsy v = false ->
          Game.py_int_of int_of_text v = Some z ->
          1 <= z <= max_value -> returned = z)
      /\ 1 <= Game.n_rows g' /\ 1 <= Game.n_cols g'
      /\ Game.n_mines g' < Game.n_rows g' * Game.n_cols g'
      /\ Game.n_mines g'
         = Z.min (match p with Game.P_n_mines => returned
                             | _ => Game.n_mines g end)
                 (Game.n_rows g' * Game.n_cols g' - 1)
      /\ Game.n_rows g' = match p with Game.P_n_rows => returned
                                     | _ => Game.n_rows g end
      /\ Game.n_cols g' = match p with Game.P_n_cols => returned
                                     | _ => Game.n_cols g end
      /\ Game.difficulty g' = Game.difficulty g
      /\ 0 <= tile <= Game.BOARD_SIZE
  end.
Proof.
  intros Hmax Hr Hc. unfold Game.set_game_parameter.
  destruct (Game.py_int_of int_of_text
              (if Game.falsy v then Game.VInt 1 else v)) as [z|] eqn:Hz.
  - set (z' := Z.min (Z.max 1 z) max_value).
    assert (Hz' : 1 <= z' <= max_value) by (unfold z'; lia).
    set (g1 := Game.setattr p z' g).
    assert (Hg1 : 1 <= Game.n_rows g1 /\ 1 <= Game.n_cols g1)
      by (unfold g1; destruct p; cbn; lia).
    unfold Game.tile_size. cbn [Game.n_rows Game.n_cols].
    destruct (Z.min (Game.n_rows g1) (Game.n_cols g1) =? 0) eqn:Hm;
      [apply Z.eqb_eq in Hm; lia|].
    cbn [Game.n_rows Game.n_cols Game.n_mines Game.difficulty].
    split; [exact Hz'|].
    split.
    { intros Hf. rewrite Hf in Hz. cbn in Hz. injection Hz as <-.
      unfold z'. lia. }
    split.
    { intros z0 Hf Hz0 Hin. rewrite Hf, Hz0 in Hz. injection Hz as <-.
      unfold z'. lia. }
    split; [apply Hg1|]. split; [apply Hg1|].
    split; [lia|].
    split; [unfold g1; destruct p; reflexivity|].
    split; [unfold g1; destruct p; reflexivity|].
    split; [unfold g1; destruct p; reflexivity|].
    split; [unfold g1; destruct p; reflexivity|].
    unfold Game.BOARD_SIZE. split.
    + apply Z.div_pos; lia.
    + apply Z.div_le_upper_bound; lia.
  - destruct (Game.falsy v) eqn:Hf; [discriminate|].
    destruct v as [z1|[|x s]|]; cbn in Hf, Hz; try discriminate.
    exists (x :: s). repeat split; [discriminate|exact Hz].
Qed.

Lemma range_nth {A} (f : Z -> A) n j d :
  0 <= j < n -> nth (Z.to_nat j) (map f (BoardAxis.range n)) d = f j.
Proof.
  intros Hj. unfold BoardAxis.range. rewrite map_map.
  rewrite (nth_indep _ d (f (Z.of_nat 0))) by (rewrite length_map, length_seq; lia).
  rewrite (map_nth (fun x => f (Z.of_nat x))), seq_nth by lia.
  f_equal. lia.
Qed.

Lemma py_str_small i : 0 <= i <= 99 -> py_str i = number_text i.
Proof.
  intros Hi.
  assert (H : forallb (fun k => str_eqb (py_str k) (number_text k))
                (BoardAxis.range 100) = true) by (vm_compute; reflexivity).
  rewrite forallb_forall in H. apply str_eqb_eq, H.
  unfold BoardAxis.range. apply in_map_iff. exists (Z.to_nat i).
  split; [lia|]. apply in_seq. lia.
Qed.

Section Axes.
Context {R : PyRuntime} {E : PyEq}.

(** X19: The labels [BoardAxis.set] draws are the words the chat understands:
    on a board of at most 26 columns and 100 rows, the label under
    column [j] followed by the [i]-th label of the side (counted from
    the bottom, where [set] puts label 0) is classified as opening
    column [j], number [i], and the consumer turns it into the tile of
    column [j] in row [n_rows - 1 - i] counted from the top, a row of
    the board. *)
Theorem axis_labels_round_trip user st n_cols n_rows j i :
  0 <= j < n_cols -> n_cols <= 26 -> 0 <= i < n_rows -> n_rows <= 100 ->
  let text := nth (Z.to_nat j) (BoardAxis.x_axis n_cols) []
              ++ nth (Z.to_nat i) (BoardAxis.y_axis n_rows) [] in
  classify user text = Some [(user, "open"%string, Pos j i)]
  /\ Game.calls (Game.on_danmu (JStr (lit "all")) st n_rows
                   (user, "open"%string, Pos j i))
     = [Game.OpenTile (n_rows - 1 - i) j]
  /\ 0 <= n_rows - 1 - i < n_rows.
Proof.
  intros Hj Hc Hi Hr text. subst text.
  unfold BoardAxis.x_axis, BoardAxis.y_axis.
  rewrite (range_nth BoardAxis.x_label) by lia.
  rewrite (range_nth BoardAxis.y_label) by lia.
  unfold BoardAxis.x_label, BoardAxis.y_label.
  rewrite py_str_small by lia. cbn [app].
  split; [|split; [|lia]].
  - assert (HL : is_letter (65 + j) = true).
    { unfold is_letter.
      replace (65 <=? 65 + j) with true by (symmetry; apply Z.leb_le; lia).
      replace (65 + j <=? 90) with true by (symmetry; apply Z.leb_le; lia).
      reflexivity. }
    pose proof (classify_cell_text user false 0 (65 + j) i
                  (Nat.le_0_l 2) HL ltac:(lia)) as H.
    cbn [bangs repeat app op_of_marks] in H. rewrite H.
    unfold letter_index.
    replace (65 + j <=? 90) with true by (symmetry; apply Z.leb_le; lia).
    replace (65 + j - 65) with j by lia. reflexivity.
  - rewrite (on_danmu_cell st n_rows user 0).
    cbn [Game.calls tile_call].
    replace (n_rows - i - 1) with (n_rows - 1 - i) by lia. reflexivity.
Qed.
End Axes.

Section Limits.
Context {R : PyRuntime}.

Ltac settle_test :=
  match goal with
  | H : decimal ?x = _ |- context [decimal ?x] => rewrite H
  | |- context [decimal ?x] => rewrite (decimal_ascii x) by lia
  | |- context [andb (Z.leb ?lo ?x) (Z.leb ?x ?hi)] =>
      first [ rewrite (range_true lo hi x) by lia
            | rewrite (range_false lo hi x) by lia ]
  | |- context [Z.eqb ?a ?b] =>
      first [ rewrite (proj2 (Z.eqb_eq a b)) by lia
            | rewrite (proj2 (Z.eqb_neq a b)) by lia ]
  | |- context [Z.leb ?a ?b] =>
      first [ rewrite (proj2 (Z.leb_le a b)) by lia
            | rewrite (proj2 (Z.leb_gt a b)) by lia ]
  end.

Ltac no_match :=
  pose proof decimal_fw_bang;
  unfold classify, re_match, bangs; cbn;
  unfold fw_bang in *; cbn;
  repeat (settle_test; cbn);
  reflexivity.

(** X5: The patterns take at most two markers, of one kind: a text that
    starts with three markers, or with an ASCII marker next to a
    full-width one, gives no command, whatever follows. *)
Theorem marker_limits user full_width rest :
  classify user (bangs full_width 3 ++ rest) = Some []
  /\ classify user (33 :: fw_bang :: rest) = Some []
  /\ classify user (fw_bang :: 33 :: rest) = Some [].
Proof.
  split; [|split].
  - destruct full_width; no_match.
  - no_match.
  - no_match.
Qed.

(** X20: Past column 25 the label [chr(ord('A') + i)] is no letter: for the
    six columns 26 to 31 it is one of the characters between [Z] and
    [a], and no text that starts with it gives a command. *)
Theorem axis_label_past_z user n_cols j rest :
  26 <= j <= 31 -> j < n_cols ->
  classify user (nth (Z.to_nat j) (BoardAxis.x_axis n_cols) [] ++ rest)
  = Some [].
Proof.
  intros Hj Hc. unfold BoardAxis.x_axis.
  rewrite (range_nth BoardAxis.x_label) by lia.
  unfold BoardAxis.x_label. cbn [app].
  remember (65 + j) as x eqn:Hx. assert (91 <= x <= 96) by lia.
  clear Hx. no_match.
Qed.
End Limits.

(** ** The lock *)

(** X9: The two threads are never both between [acquire] and [release], and
    between [copy()] and [clear()] of [get_danmu_list] the decoder is
    outside its append sections and the shared list is still the copy:
    nothing is appended that [clear()] would drop. *)
Theorem copy_and_clear_undisturbed s :
  Threads.reachable s ->
  Threads.holds_lock_p (Threads.prod s)
    && Threads.holds_lock_c (Threads.cons s) = false
  /\ (forall l, Threads.cons s = Threads.CCopied l ->
        l = Threads.shared s /\ Threads.prod s = Threads.PIdle).
Proof.
  intros (Hp & Hc & Hcopy & _)%ThreadFacts.reachable_invariant.
  assert (Hex : Threads.holds_lock_p (Threads.prod s)
                && Threads.holds_lock_c (Threads.cons s) = false).
  { destruct (Threads.holds_lock_p (Threads.prod s)) eqn:H1;
      [|reflexivity].
    destruct (Threads.holds_lock_c (Threads.cons s)) eqn:H2;
      [|reflexivity].
    pose proof (proj2 Hp eq_refl). pose proof (proj2 Hc eq_refl).
    congruence. }
  split; [exact Hex|].
  intros l Hl. rewrite Hl in Hcopy, Hex. split; [exact Hcopy|].
  cbn in Hex. rewrite andb_true_r in Hex.
  now destruct (Threads.prod s).
Qed.

(** ** Worked examples *)

Ltac differ := let H := fresh in intros H; vm_compute in H; discriminate.

Lemma copy_and_clear_undisturbed_witness :
  Threads.holds_lock_p (Threads.prod ExGame.copied)
    && Threads.holds_lock_c (Threads.cons ExGame.copied) = false
  /\ (forall l, Threads.cons ExGame.copied = Threads.CCopied l ->
        l = Threads.shared ExGame.copied
        /\ Threads.prod ExGame.copied = Threads.PIdle).
Proof.
  apply (copy_and_clear_undisturbed ExGame.copied).
  unfold ExGame.copied.
  eapply Threads.reach_step; [|apply Threads.c_copy].
  eapply Threads.reach_step; [|apply Threads.c_acquire].
  eapply Threads.reach_step; [|apply Threads.p_release].
  eapply Threads.reach_step;
    [|apply (Threads.p_append Ex.bob_cmd (Some Threads.Producer) []
               Threads.CIdle [] [])].
  eapply Threads.reach_step; [|apply (Threads.p_acquire Ex.bob_cmd)].
  apply Threads.reach_init.
Defined.

(** amy holds the board; bob's command and cy's gift change nothing. *)
Lemma other_users_ignored_witness :
  Game.process_danmu_list (E := ref_eq) ExGame.world ExGame.status
    ExGame.rows ExGame.react [Ex.bob_cmd; Ex.cy_cmd] (JStr (lit "amy")) []
  = {| Game.final_player := JStr (lit "amy"); Game.world := [];
       Game.trace := []; Game.failed := false |}.
Proof.
  apply (other_users_ignored (E := ref_eq)); [differ|].
  apply Forall_cons; [differ|]. apply Forall_cons; [differ|].
  apply Forall_nil.
Defined.

(** cy's gift comes first: cy gets the board, and what bob and amy sent
    behind it is dropped.  A gift of someone called [all] leaves the
    board open, and bob's command behind it reaches the board. *)
Lemma first_gift_takes_board_witness :
  Game.process_danmu_list (E := ref_eq) ExGame.world ExGame.status
    ExGame.rows ExGame.react [Ex.cy_cmd; Ex.bob_cmd; Ex.amy_cmd]
    (JStr (lit "all")) []
  = {| Game.final_player := JStr (lit "cy"); Game.world := [];
       Game.trace := [Game.TimerStart 60000]; Game.failed := false |}
  /\ Game.process_danmu_list (E := ref_eq) ExGame.world ExGame.status
       ExGame.rows ExGame.react [ExGame.all_gift; Ex.bob_cmd]
       (JStr (lit "all")) []
     = {| Game.final_player := JStr (lit "all");
          Game.world := [Game.OpenTile 10 0];
          Game.trace := [Game.TimerStart 60000; Game.OpenTile 10 0];
          Game.failed := false |}.
Proof.
  split.
  - apply (proj1 (first_gift_takes_board (E := ref_eq) ExGame.world
                    ExGame.status ExGame.rows ExGame.react (lit "cy")
                    (Txt []) [Ex.bob_cmd; Ex.amy_cmd] [])); [differ|].
    apply Forall_cons; [differ|]. apply Forall_cons; [differ|].
    apply Forall_nil.
  - apply (proj2 (first_gift_takes_board (E := ref_eq) ExGame.world
                    ExGame.status ExGame.rows ExGame.react (lit "all")
                    (Txt []) [Ex.bob_cmd] [])).
    reflexivity.
Defined.

(** bob writes [!!c12] on a board of 16 rows: the flag is taken from
    the tile in row 3, column 2.  amy's full-width mark cannot be
    written to an ASCII [stdout]: her command never reaches the
    board. *)
Lemma chat_reaches_tile_witness :
  (Game.trace
     (Game.process_danmu_list (E := ref_eq) ExGame.world ExGame.status
        ExGame.rows ExGame.react
        (fst (get_danmu_list
                (queue_of (decode_danmu (R := ref_runtime) 2
                             ExGame.bob_unchecks []))))
        (JStr (lit "all")) [])
   = [Game.UncheckTile 3 2]
   /\ (0 <= 16 - 12 - 1 < 16 <-> 12 < 16))
  /\ (Game.trace
        (Game.process_danmu_list (E := ref_eq) ExGame.world ExGame.status
           ExGame.rows ExGame.react
           (fst (get_danmu_list
                   (queue_of (decode_danmu (R := ascii_stdout) 2
                                ExGame.amy_flags []))))
           (JStr (lit "all")) [])
      = []
      /\ (0 <= 16 - 12 - 1 < 16 <-> 12 < 16)).
Proof.
  split.
  - apply (chat_reaches_tile (R := ref_runtime) (E := ref_eq)
             ExGame.world ExGame.status ExGame.rows ExGame.react
             1%nat ExGame.bob_unchecks 0
             (Wire.chat (lit "bob") (lit "!!c12")) (JStr (lit "bob"))
             false 2%nat 99 12 []).
    + eexists. split; [vm_compute; reflexivity | vm_compute; discriminate].
    + discriminate.
    + discriminate.
    + vm_compute. reflexivity.
    + split; [vm_compute; reflexivity|].
      eexists _, _. repeat split; vm_compute; reflexivity.
    + lia.
    + reflexivity.
    + lia.
  - apply (chat_reaches_tile (R := ascii_stdout) (E := ref_eq)
             ExGame.world ExGame.status ExGame.rows ExGame.react
             1%nat ExGame.amy_flags 0
             (Wire.chat (lit "amy") (fw_bang :: lit "b12"))
             (JStr (lit "amy")) true 1%nat 98 12 []).
    + eexists. split; [vm_compute; reflexivity | vm_compute; discriminate].
    + discriminate.
    + discriminate.
    + vm_compute. reflexivity.
    + split; [vm_compute; reflexivity|].
      eexists _, _. repeat split; vm_compute; reflexivity.
    + lia.
    + reflexivity.
    + lia.
Defined.

(** bob writes [easy] while the board is set to NORMAL. *)
Lemma difficulty_entry_configures_witness :
  (exists word,
      snd (Game.set_difficulty (Txt (lit "EASY")) ExGame.normal_board)
      = Some (Game.hint_prefix ++ word))
  /\ ((Game.n_rows (fst (Game.set_difficulty (Txt (lit "EASY"))
                           ExGame.normal_board)),
       Game.n_cols (fst (Game.set_difficulty (Txt (lit "EASY"))
                           ExGame.normal_board)),
       Game.n_mines (fst (Game.set_difficulty (Txt (lit "EASY"))
                            ExGame.normal_board)),
       Game.tile_size (fst (Game.set_difficulty (Txt (lit "EASY"))
                              ExGame.normal_board)))
      = (10, 10, 10, Some 55)
      \/ (Game.n_rows (fst (Game.set_difficulty (Txt (lit "EASY"))
                              ExGame.normal_board)),
          Game.n_cols (fst (Game.set_difficulty (Txt (lit "EASY"))
                              ExGame.normal_board)),
          Game.n_mines (fst (Game.set_difficulty (Txt (lit "EASY"))
                               ExGame.normal_board)),
          Game.tile_size (fst (Game.set_difficulty (Txt (lit "EASY"))
                                 ExGame.normal_board)))
         = (16, 16, 40, Some 34))
  /\ Game.n_mines (fst (Game.set_difficulty (Txt (lit "EASY"))
                          ExGame.normal_board))
     < Game.n_rows (fst (Game.set_difficulty (Txt (lit "EASY"))
                           ExGame.normal_board))
       * Game.n_cols (fst (Game.set_difficulty (Txt (lit "EASY"))
                             ExGame.normal_board)).
Proof.
  apply (difficulty_entry_configures (R := ref_runtime) 2%nat
           ExGame.bob_easy (JStr (lit "bob")) (Txt (lit "EASY"))
           ExGame.normal_board).
  vm_compute. left. reflexivity.
Defined.

Lemma header_fields_bounded_witness :
  header Ex.bob_opens = Some (Z.of_nat (List.length Ex.bob_opens), 0, 5)
  /\ (0 <= Z.of_nat (List.length Ex.bob_opens) < 2 ^ 32
      /\ 0 <= 0 < 2 ^ 16 /\ 0 <= 5 < 2 ^ 32
      /\ firstn (Z.to_nat (Z.of_nat (List.length Ex.bob_opens))) Ex.bob_opens
         ++ skipn (Z.to_nat (Z.of_nat (List.length Ex.bob_opens)))
              Ex.bob_opens
         = Ex.bob_opens).
Proof.
  split; [vm_compute; reflexivity|].
  apply (header_fields_bounded Ex.bob_opens
           (Z.of_nat (List.length Ex.bob_opens)) 0 5).
  vm_compute. reflexivity.
Defined.

(** A compressed frame around bob's and amy's frames, then cy's gift:
    cy's command comes out first, then amy's, then bob's. *)
Lemma decode_nested_buffer_witness :
  decode_danmu (R := ref_runtime) 5 (forest_bytes ExGame.nested) []
  = Returned ([] ++ forest_commands ExGame.nested)
  /\ forest_bytes ExGame.nested = Ex.compressed_pair ++ Ex.cy_gift
  /\ forest_commands (R := ref_runtime) ExGame.nested
     = [Ex.cy_cmd; Ex.amy_cmd; Ex.bob_cmd].
Proof.
  split; [|split; vm_compute; reflexivity].
  apply (decode_nested_buffer (R := ref_runtime) 5 ExGame.nested []).
  - discriminate.
  - unfold ExGame.nested. cbn [valid_forest valid_tree].
    repeat split; try (vm_compute; reflexivity); try discriminate.
    + vm_compute. lia.
    + eexists. vm_compute. reflexivity.
  - vm_compute. lia.
Defined.

(** bob's message arrives before the message with cy's and amy's
    frames. *)
Lemma recv_keeps_message_order_witness :
  recv_danmu (R := ref_runtime) 3 (map forest_bytes ExGame.messages) []
  = Returned ([] ++ concat (map forest_commands ExGame.messages))
  /\ concat (map (forest_commands (R := ref_runtime)) ExGame.messages)
     = [Ex.bob_cmd; Ex.amy_cmd; Ex.cy_cmd].
Proof.
  split; [|vm_compute; reflexivity].
  apply (recv_keeps_message_order (R := ref_runtime) 3 ExGame.messages []).
  unfold ExGame.messages.
  apply Forall_cons; [|apply Forall_cons; [|apply Forall_nil]].
  - split; [discriminate|]. split; [|vm_compute; lia].
    cbn [valid_forest valid_tree]. split; [vm_compute; reflexivity|exact I].
  - split; [discriminate|]. split; [|vm_compute; lia].
    cbn [valid_forest valid_tree].
    repeat split; vm_compute; reflexivity.
Defined.

(** The first eight bytes of bob's frame, with amy's command already in
    the list. *)
Lemma decode_truncated_witness :
  decode_danmu (R := ref_runtime) 1 (firstn 8 Ex.bob_opens) [Ex.amy_cmd]
  = Raised ValueError [Ex.amy_cmd].
Proof.
  apply (decode_truncated (R := ref_runtime) 0 (firstn 8 Ex.bob_opens)
           [Ex.amy_cmd]).
  vm_compute. lia.
Defined.

Lemma zero_length_recurses_witness :
  decode_danmu (R := ref_runtime) 1000 ExGame.zero_length []
  = Raised RecursionError [].
Proof.
  apply (zero_length_recurses (R := ref_runtime) 1000 ExGame.zero_length
           0 5 []).
  vm_compute. reflexivity.
Defined.

(** The room of the game, 299992. *)
Lemma startup_frame_is_join_packet_witness :
  exists f,
    startup_frame (lit "299992") = Some f
    /\ f = Wire.packet 1 7 (map Ref.byte_of (join_payload (lit "299992")))
    /\ header f = Some (Z.of_nat (List.length f), 1, 7)
    /\ Z.of_nat (List.length f)
       = 27 + Z.of_nat (List.length (lit "299992")).
Proof.
  apply (startup_frame_is_join_packet (lit "299992")).
  - apply Forall_forall. intros x Hx. unfold room_char.
    vm_compute in Hx. intuition lia.
  - vm_compute. lia.
Defined.

(** A room of 229 digits. *)
Lemma startup_frame_long_room_witness :
  startup_frame (repeat 49 229) = None.
Proof.
  apply (startup_frame_long_room (repeat 49 229)).
  - apply Forall_forall. intros x Hx. apply repeat_spec in Hx. subst x.
    unfold room_char. lia.
  - rewrite repeat_length. lia.
Defined.

(** 200 mines asked for on a board of 10 x 10: 200 is returned, 99 are
    stored. *)
Lemma set_game_parameter_keeps_board_witness :
  Game.set_game_parameter ExGame.int_of_text Game.P_n_mines 2500
    (Game.VStr (lit "200"))
    {| Game.difficulty := Txt (lit "EASY"); Game.n_rows := 10;
       Game.n_cols := 10; Game.n_mines := 10 |}
  = Game.ParameterSet
      {| Game.difficulty := Txt (lit "EASY"); Game.n_rows := 10;
         Game.n_cols := 10; Game.n_mines := 99 |} 200 55
  /\ 1 <= 200 <= 2500.
Proof.
  split; [vm_compute; reflexivity|].
  pose proof (set_game_parameter_keeps_board ExGame.int_of_text
                Game.P_n_mines 2500 (Game.VStr (lit "200"))
                {| Game.difficulty := Txt (lit "EASY"); Game.n_rows := 10;
                   Game.n_cols := 10; Game.n_mines := 10 |}
                ltac:(lia) ltac:(cbn; lia) ltac:(cbn; lia)) as H.
  vm_compute in H. vm_compute. exact (proj1 H).
Defined.

(** The labels [C] and [7] of a board of 10 x 10. *)
Lemma axis_labels_round_trip_witness :
  classify (R := ref_runtime) (JStr (lit "bob"))
    (nth (Z.to_nat 2) (BoardAxis.x_axis 10) []
     ++ nth (Z.to_nat 7) (BoardAxis.y_axis 10) [])
  = Some [(JStr (lit "bob"), "open"%string, Pos 2 7)]
  /\ Game.calls (Game.on_danmu (E := ref_eq) (JStr (lit "all"))
                   (JStr (lit "running")) 10
                   (JStr (lit "bob"), "open"%string, Pos 2 7))
     = [Game.OpenTile (10 - 1 - 7) 2]
  /\ 0 <= 10 - 1 - 7 < 10.
Proof.
  apply (axis_labels_round_trip (R := ref_runtime) (E := ref_eq)
           (JStr (lit "bob")) (JStr (lit "running")) 10 10 2 7); lia.
Defined.

(** Column 26 of a board of 30 columns is labelled with a bracket. *)
Lemma axis_label_past_z_witness :
  classify (R := ref_runtime) (JStr (lit "bob"))
    (nth (Z.to_nat 26) (BoardAxis.x_axis 30) [] ++ lit "7")
  = Some [].
Proof.
  apply (axis_label_past_z (R := ref_runtime) (JStr (lit "bob")) 30 26
           (lit "7")); lia.
Defined.
